(** * NYC taxi fare prediction: the prediction pipeline of [app.py]

    A shallow embedding of the Flask application's pipeline: the haversine
    distance, the feature builder, the model cache, and the two prediction
    routes, followed by the properties of the pipeline.

    Modelling conventions.
    - Finite numbers are exact rationals ([Q]); binary64 rounding is not
      modelled.  Model outputs range over [pynum], which adds the two
      infinities and NaN, since the clamp has to cope with them.
    - numpy's elementary functions, pandas' timestamp parser and the
      directory of the application are parameters, gathered in [Libs].
    - Python exceptions are values [Raise msg] carrying [str(e)], which is
      all the handlers of [app.py] ever look at.
    - The module-level dict [_models] and the model directory on disk form
      the [World] that the routes thread through; every [os.path.exists]
      and [joblib.load] is recorded in [io_log]. *)

From Stdlib Require Import ZArith QArith Lia List.
From stdpp Require Import base option strings gmap list.

Local Open Scope Z_scope.

(** ** Numbers *)

(** A Python float as far as the pipeline observes it. *)
Inductive pynum : Type :=
  | Fin (q : Q)
  | PosInf
  | NegInf
  | NaN.

(** [x > y] on floats; any comparison with NaN is false. *)
Definition py_gt (x y : pynum) : bool :=
  match x, y with
  | NaN, _ | _, NaN => false
  | PosInf, PosInf => false
  | PosInf, _ => true
  | _, PosInf => false
  | NegInf, _ => false
  | Fin _, NegInf => true
  | Fin a, Fin b => match (a ?= b)%Q with Gt => true | _ => false end
  end.

(** The builtin [max(0, x)]: the first argument is kept unless the second
    compares strictly greater. *)
Definition py_max0 (x : pynum) : pynum :=
  if py_gt x (Fin 0) then x else Fin 0.

(** Nearest integer, ties to even. *)
Definition round_half_even (q : Q) : Z :=
  let n := Qnum q in
  let d := Zpos (Qden q) in
  let fl := n / d in
  match 2 * (n mod d) ?= d with
  | Lt => fl
  | Gt => fl + 1
  | Eq => if Z.even fl then fl else fl + 1
  end.

(** The builtin [round(x, 2)] on a finite number. *)
Definition round2 (q : Q) : Q := (round_half_even (q * 100) # 100)%Q.

(** [round(x, 2)] on a float: infinities and NaN are returned unchanged. *)
Definition py_round2 (x : pynum) : pynum :=
  match x with
  | Fin q => Fin (round2 q)
  | other => other
  end.

(** [0 <= x]; false for NaN. *)
Definition py_nonneg (x : pynum) : Prop :=
  match x with
  | Fin q => (0 <= q)%Q
  | PosInf => True
  | NegInf | NaN => False
  end.

(** [x < 0]; false for NaN. *)
Definition py_negative (x : pynum) : Prop :=
  match x with
  | Fin q => (q < 0)%Q
  | NegInf => True
  | PosInf | NaN => False
  end.

(** ** Exceptions *)

(** The result of evaluating a Python expression: a value, or an exception
    whose [str()] is [msg]. *)
Inductive outcome (A : Type) : Type :=
  | Ok (a : A)
  | Raise (msg : string).
Arguments Ok {A} a.
Arguments Raise {A} msg.

Definition obind {A B} (x : outcome A) (k : A → outcome B) : outcome B :=
  match x with
  | Ok a => k a
  | Raise msg => Raise msg
  end.

Notation "'let?' x ':=' e 'in' k" := (obind e (fun x => k))
  (at level 10, x name, e at level 100, k at level 200).

(** ** Request data *)

(** A decoded JSON scalar.  Booleans, arrays and objects as field values
    are left out. *)
Inductive value : Type :=
  | VNum (q : Q)
  | VStr (s : string)
  | VNull.

(** The JSON object of one trip: the body of a single request, or one
    element of the batch list.  [fields] holds every key but [model];
    [model], when given, is a string. *)
Record TripData : Type := {
  fields : gmap string value;
  model : option string
}.

(** [d[key]]: a missing key raises [KeyError], whose [str()] is the quoted
    key. *)
Definition getitem (d : TripData) (key : string) : outcome value :=
  match fields d !! key with
  | Some v => Ok v
  | None => Raise ("'" +:+ key +:+ "'")
  end.

(** [d.get('model', default)]. *)
Definition get_model (d : TripData) (default : string) : string :=
  match model d with
  | Some name => name
  | None => default
  end.

(** What the feature builder reads off a parsed [pandas.Timestamp]. *)
Record Timestamp : Type := {
  hour : Z;
  dayofweek : Z;
  month : Z;
  year : Z
}.

(** ** Time indicators of [create_features] *)

Definition is_morning (hour : Z) : Z :=
  if (6 <=? hour) && (hour <? 12) then 1 else 0.

Definition is_afternoon (hour : Z) : Z :=
  if (12 <=? hour) && (hour <? 18) then 1 else 0.

Definition is_evening (hour : Z) : Z :=
  if (18 <=? hour) && (hour <? 22) then 1 else 0.

Definition is_night (hour : Z) : Z :=
  if (22 <=? hour) || (hour <? 6) then 1 else 0.

Definition is_weekend (day_of_week : Z) : Z :=
  if 5 <=? day_of_week then 1 else 0.

Definition is_rush_hour (hour : Z) : Z :=
  if ((7 <=? hour) && (hour <? 10)) || ((16 <=? hour) && (hour <? 19))
  then 1 else 0.

Definition is_peak_hour (hour : Z) : Z :=
  if existsb (Z.eqb hour) [8; 9; 17; 18; 19; 20] then 1 else 0.

(** ** The world: model cache, model directory, and I/O trace *)

(** The sixteen entries of the feature row, in the order of the source. *)
Definition FeatureVector : Type := list value.

(** A deserialised regressor, seen through [model.predict(features)[0]]. *)
Definition Model : Type := FeatureVector → outcome pynum.

Inductive io_event : Type :=
  | PathExists (path : string)
  | JoblibLoad (path : string).

(** [_models] is the module-level cache; [disk] maps the path of each
    file that exists to the regressor [joblib.load] reads from it (the
    artifacts are loadable regressors);
    [io_log] lists the file-system calls made so far, latest first. *)
Record World : Type := {
  _models : gmap string Model;
  disk : gmap string Model;
  io_log : list io_event
}.

Definition log_event (e : io_event) (w : World) : World :=
  {| _models := _models w; disk := disk w; io_log := e :: io_log w |}.

Definition cache_store (name : string) (m : Model) (w : World) : World :=
  {| _models := <[name := m]> (_models w); disk := disk w;
     io_log := io_log w |}.

(** Computations that may touch the world and may raise. *)
Definition Py (A : Type) : Type := World → World * outcome A.

Definition ret {A} (a : A) : Py A := λ w, (w, Ok a).

Definition lift {A} (o : outcome A) : Py A := λ w, (w, o).

Definition bind {A B} (m : Py A) (k : A → Py B) : Py B :=
  λ w, match m w with
       | (w', Ok a) => k a w'
       | (w', Raise msg) => (w', Raise msg)
       end.

Notation "'let!' x ':=' e 'in' k" := (bind e (fun x => k))
  (at level 10, x name, e at level 100, k at level 200).

(** [os.path.exists(path)]. *)
Definition os_path_exists (path : string) : Py bool :=
  λ w, (log_event (PathExists path) w,
        Ok (bool_decide (is_Some (disk w !! path)))).

(** [joblib.load(path)]. *)
Definition joblib_load (path : string) : Py Model :=
  λ w, match disk w !! path with
       | Some m => (log_event (JoblibLoad path) w, Ok m)
       | None => (log_event (JoblibLoad path) w,
                  Raise ("[Errno 2] No such file or directory: '"
                         +:+ path +:+ "'"))
       end.

(** [os.path.join(a, b)] on POSIX. *)
Definition os_path_join (a b : string) : string :=
  if String.prefix "/" b then b
  else
    let last := String.substring (String.length a - 1)%nat 1%nat a in
    if (String.eqb a "" || String.eqb last "/")%bool
    then a +:+ b
       else a +:+ "/" +:+ b.

(** ** Responses *)

(** One element of the batch result list. *)
Inductive entry : Type :=
  | ResultEntry (prediction : pynum) (model_used : string)
  | ErrorEntry (error : string).

(** The JSON bodies the two routes produce. *)
Inductive body : Type :=
  | ErrorBody (error : string)
  | PredictBody (prediction : pynum) (model_used : string) (distance_km : Q)
  | BatchBody (results : list entry).

(** A body with its HTTP status. *)
Definition Response : Type := body * Z.

(** One value of [get_model_info()]. *)
Record ModelInfo : Type := {
  file : string;
  available : bool;
  metrics : list (string * string)
}.

Definition set_available (b : bool) (info : ModelInfo) : ModelInfo :=
  {| file := file info; available := b; metrics := metrics info |}.

(** The dict literal of [get_model_info], in insertion order. *)
Definition models_table : list (string * ModelInfo) :=
  [ ("linear_regression",
     {| file := "linear_regression_model.pkl"; available := false;
        metrics := [("RMSE", "$5.24"); ("R²", "0.82")] |});
    ("decision_tree",
     {| file := "decision_tree_model.pkl"; available := false;
        metrics := [("RMSE", "$4.12"); ("R²", "0.86")] |});
    ("random_forest",
     {| file := "random_forest_model.pkl"; available := false;
        metrics := [("RMSE", "$3.42"); ("R²", "0.91")] |});
    ("xgboost",
     {| file := "xgboost_model.pkl"; available := false;
        metrics := [("RMSE", "$3.56"); ("R²", "0.90")] |}) ].

Definition required_fields : list string :=
  [ "pickup_latitude"; "pickup_longitude";
    "dropoff_latitude"; "dropoff_longitude";
    "pickup_datetime" ].

(** The bodies of the two read-only routes, as handed to [jsonify];
    [models] lists the dict of [get_model_info] in insertion order. *)
Inductive info_body : Type :=
  | ModelsBody (models : list (string * ModelInfo))
  | HealthBody (status : string) (models_available total_models : Z).

Definition InfoResponse : Type := info_body * Z.

(** ** The pipeline *)

(** What the application takes from its environment: the directory of
    [app.py] ([os.path.dirname(__file__)]), numpy's functions on a scalar
    ([np_radians] receives the raw JSON value and raises on what numpy
    cannot convert), and [pandas.to_datetime] on the raw JSON value. *)
Class Libs : Type := {
  app_dir : string;
  np_radians : value → outcome Q;
  np_sin : Q → Q;
  np_cos : Q → Q;
  np_sqrt : Q → Q;
  np_arctan2 : Q → Q → Q;
  pd_to_datetime : value → outcome Timestamp
}.

Section Pipeline.

Context `{Libs}.

Definition MODEL_DIR : string := os_path_join app_dir "models".

Definition haversine_distance (lat1 lon1 lat2 lon2 : value) : outcome Q :=
  let R := 6371%Q in
  let? lat1 := np_radians lat1 in
  let? lon1 := np_radians lon1 in
  let? lat2 := np_radians lat2 in
  let? lon2 := np_radians lon2 in
  let dlat := (lat2 - lat1)%Q in
  let dlon := (lon2 - lon1)%Q in
  let a := (np_sin (dlat / 2) ^ 2
            + np_cos lat1 * np_cos lat2 * np_sin (dlon / 2) ^ 2)%Q in
  let c := (2 * np_arctan2 (np_sqrt a) (np_sqrt (1 - a)))%Q in
  Ok (R * c)%Q.

Definition VInt (n : Z) : value := VNum (inject_Z n).

Definition create_features
    (pickup_lat pickup_lon dropoff_lat dropoff_lon pickup_datetime : value)
    : outcome FeatureVector :=
  let? distance :=
    haversine_distance pickup_lat pickup_lon dropoff_lat dropoff_lon in
  let? pickup_datetime := pd_to_datetime pickup_datetime in
  let hour := hour pickup_datetime in
  let day_of_week := dayofweek pickup_datetime in
  let month := month pickup_datetime in
  let year := year pickup_datetime in
  Ok [ VNum distance; VInt hour; VInt day_of_week; VInt month; VInt year;
       pickup_lat; pickup_lon; dropoff_lat; dropoff_lon;
       VInt (is_morning hour); VInt (is_afternoon hour);
       VInt (is_evening hour); VInt (is_night hour);
       VInt (is_weekend day_of_week); VInt (is_rush_hour hour);
       VInt (is_peak_hour hour) ].

Definition load_model (model_name : string) : Py (option Model) :=
  λ w,
    match _models w !! model_name with
    | Some m => (w, Ok (Some m))
    | None =>
        let model_path :=
          os_path_join MODEL_DIR (model_name +:+ "_model.pkl") in
        (let! present := os_path_exists model_path in
         if present then
           (let! m := joblib_load model_path in
            λ w1, (cache_store model_name m w1, Ok (Some m)))
         else ret None) w
    end.

(** The loop of [get_model_info] over the entries of the table. *)
Fixpoint refresh_available (models : list (string * ModelInfo))
    : Py (list (string * ModelInfo)) :=
  match models with
  | [] => ret []
  | (name, info) :: rest =>
      let model_path := os_path_join MODEL_DIR (file info) in
      let! present := os_path_exists model_path in
      let! rest' := refresh_available rest in
      ret ((name, set_available present info) :: rest')
  end.

Definition get_model_info : Py (list (string * ModelInfo)) :=
  refresh_available models_table.

(** The route [/api/models]. *)
Definition list_models : Py InfoResponse :=
  let! models := get_model_info in
  ret (ModelsBody models, 200).

(** [model.predict(features)[0]]; [model] may be [None]. *)
Definition model_predict (model : option Model) (features : FeatureVector)
    : outcome pynum :=
  match model with
  | Some m => m features
  | None => Raise "'NoneType' object has no attribute 'predict'"
  end.

(** Lines 145-169 of [predict]: features, inference, clamp, response. *)
Definition predict_with (data : TripData) (model_name : string)
    (model : option Model) : outcome Response :=
  let? pickup_lat := getitem data "pickup_latitude" in
  let? pickup_lon := getitem data "pickup_longitude" in
  let? dropoff_lat := getitem data "dropoff_latitude" in
  let? dropoff_lon := getitem data "dropoff_longitude" in
  let? pickup_datetime := getitem data "pickup_datetime" in
  let? features :=
    create_features pickup_lat pickup_lon dropoff_lat dropoff_lon
                    pickup_datetime in
  let? prediction := model_predict model features in
  let prediction := py_max0 prediction in
  let? distance :=
    haversine_distance pickup_lat pickup_lon dropoff_lat dropoff_lon in
  Ok (PredictBody (py_round2 prediction) model_name (round2 distance), 200).

(** The body of the [try] block of [predict]. *)
Definition predict_try (data : TripData) : Py Response :=
  let model_name := get_model data "random_forest" in
  let! model := load_model model_name in
  match model with
  | Some _ => lift (predict_with data model_name model)
  | None =>
      let! info := get_model_info in
      let available_models :=
        map fst (List.filter (λ kv, available (snd kv)) info) in
      match available_models with
      | model_name :: _ =>
          let! model := load_model model_name in
          lift (predict_with data model_name model)
      | [] => ret (ErrorBody "No models available for prediction", 500)
      end
  end.

(** The first required field that is not a key of the request. *)
Definition first_missing (data : TripData) : option string :=
  List.find (λ field, bool_decide (fields data !! field = None))
            required_fields.

(** The route [/api/predict] on the decoded request body. *)
Definition predict (data : TripData) (w : World) : World * Response :=
  match first_missing data with
  | Some field =>
      (w, (ErrorBody ("Missing required field: " +:+ field), 400))
  | None =>
      match predict_try data w with
      | (w', Ok response) => (w', response)
      | (w', Raise msg) => (w', (ErrorBody msg, 500))
      end
  end.

(** The body of the [try] block of [batch_predict], for one item. *)
Definition batch_item_try (item : TripData) : Py entry :=
  let! pickup_lat := lift (getitem item "pickup_latitude") in
  let! pickup_lon := lift (getitem item "pickup_longitude") in
  let! dropoff_lat := lift (getitem item "dropoff_latitude") in
  let! dropoff_lon := lift (getitem item "dropoff_longitude") in
  let! pickup_datetime := lift (getitem item "pickup_datetime") in
  let! features := lift (create_features pickup_lat pickup_lon dropoff_lat
                                    dropoff_lon pickup_datetime) in
  let model_name := get_model item "random_forest" in
  let! model := load_model model_name in
  let! resolved := match model with
              | Some _ => ret (model_name, model)
              | None =>
                  let model_name := "linear_regression" in
                  let! model := load_model model_name in
                  ret (model_name, model)
              end in
  let! prediction := lift (model_predict (snd resolved) features) in
  let prediction := py_max0 prediction in
  ret (ResultEntry (py_round2 prediction) (fst resolved)).

(** One iteration of the loop of [batch_predict]: the entry appended to
    [results]. *)
Definition batch_item (item : TripData) (w : World) : World * entry :=
  match batch_item_try item w with
  | (w', Ok e) => (w', e)
  | (w', Raise msg) => (w', ErrorEntry msg)
  end.

(** The loop of [batch_predict]. *)
Fixpoint batch_loop (items : list TripData) (results : list entry)
    (w : World) : World * list entry :=
  match items with
  | [] => (w, results)
  | item :: rest =>
      let (w', e) := batch_item item w in
      batch_loop rest (results ++ [e]) w'
  end.

(** The route [/api/batch-predict]; [predictions] is the value under the
    key ['predictions'] of the decoded body, if the key is there, taken to
    be a list of JSON objects. *)
Definition batch_predict (predictions : option (list TripData))
    (w : World) : World * Response :=
  match predictions with
  | None => (w, (ErrorBody "Missing predictions array", 400))
  | Some items =>
      let (w', results) := batch_loop items [] w in
      (w', (BatchBody results, 200))
  end.

(** The route [/health]. *)
Definition health_check : Py InfoResponse :=
  let! models := get_model_info in
  let available_count :=
    Z.of_nat (length (List.filter (λ kv, available (snd kv)) models)) in
  ret (HealthBody "healthy" available_count (Z.of_nat (length models)), 200).

End Pipeline.

(** ** Specification vocabulary *)

(** The path [load_model] looks at for a model name. *)
Definition artifact_path `{Libs} (model_name : string) : string :=
  os_path_join MODEL_DIR (model_name +:+ "_model.pkl").

(** A model is unavailable when [load_model] can neither find it in the
    cache nor on disk. *)
Definition unavailable `{Libs} (model_name : string) (w : World) : Prop :=
  _models w !! model_name = None ∧ disk w !! artifact_path model_name = None.

(** The four identifiers in their enumeration order. *)
Definition enumeration_order : list string :=
  [ "linear_regression"; "decision_tree"; "random_forest"; "xgboost" ].

(** The first identifier, in enumeration order, whose artifact is on
    disk. *)
Definition first_available `{Libs} (w : World) : option string :=
  List.find (λ name, bool_decide (is_Some (disk w !! artifact_path name)))
            enumeration_order.

(** The world after [os.path.exists] has been asked about each of [paths]
    in turn. *)
Definition probed (paths : list string) (w : World) : World :=
  {| _models := _models w; disk := disk w;
     io_log := rev (map PathExists paths) ++ io_log w |}.

(** The paths [get_model_info] asks about, in order. *)
Definition table_paths `{Libs} : list string :=
  map (λ kv, os_path_join MODEL_DIR (file (snd kv))) models_table.

(** The model [load_model] returns for a name: the cached instance, or
    else what the artifact deserialises to, or else nothing. *)
Definition resolve `{Libs} (model_name : string) (w : World)
    : option Model :=
  match _models w !! model_name with
  | Some m => Some m
  | None => disk w !! artifact_path model_name
  end.

(** The feature row both routes build from the fields of a trip, and the
    distance [predict] reports. *)
Definition trip_features `{Libs} (data : TripData) : outcome FeatureVector :=
  let? pickup_lat := getitem data "pickup_latitude" in
  let? pickup_lon := getitem data "pickup_longitude" in
  let? dropoff_lat := getitem data "dropoff_latitude" in
  let? dropoff_lon := getitem data "dropoff_longitude" in
  let? pickup_datetime := getitem data "pickup_datetime" in
  create_features pickup_lat pickup_lon dropoff_lat dropoff_lon
                  pickup_datetime.

Definition trip_distance `{Libs} (data : TripData) : outcome Q :=
  let? pickup_lat := getitem data "pickup_latitude" in
  let? pickup_lon := getitem data "pickup_longitude" in
  let? dropoff_lat := getitem data "dropoff_latitude" in
  let? dropoff_lon := getitem data "dropoff_longitude" in
  haversine_distance pickup_lat pickup_lon dropoff_lat dropoff_lon.

(** The batch entry for a feature row once the model is settled. *)
Definition entry_of `{Libs} (model_name : string) (model : option Model)
    (features : FeatureVector) : entry :=
  match model_predict model features with
  | Ok raw => ResultEntry (py_round2 (py_max0 raw)) model_name
  | Raise msg => ErrorEntry msg
  end.

(** All five required fields are keys of the request. *)
Definition complete (data : TripData) : Prop :=
  Forall (λ field, is_Some (fields data !! field)) required_fields.

#[global] Instance complete_dec (data : TripData) : Decision (complete data).
Proof. unfold complete. apply _. Defined.

#[global] Instance unavailable_dec `{Libs} (model_name : string) (w : World) :
  Decision (unavailable model_name w).
Proof. unfold unavailable. apply _. Defined.

(** The status the routes use for client-input errors and the one they use
    for server-side errors. *)
Definition client_error_status : Z := 400.
Definition server_error_status : Z := 500.

(** The world in which the first [n] items of a batch have been handled. *)
Definition world_before `{Libs} (items : list TripData) (n : nat)
    (w : World) : World :=
  fst (batch_loop (take n items) [] w).

(** What a route may do to the world: the disk stays as it is, cache
    entries are neither dropped nor replaced, and the I/O trace only
    grows. *)
Definition evolves (w w' : World) : Prop :=
  disk w' = disk w
  ∧ _models w ⊆ _models w'
  ∧ io_log w `suffix_of` io_log w'.

(** The catch-all handler of [predict]: an exception becomes an error body
    under the server-error status. *)
Definition handled (o : outcome Response) : Response :=
  match o with
  | Ok response => response
  | Raise msg => (ErrorBody msg, server_error_status)
  end.

(** Every cached model is the one the artifact of its name deserialises
    to. *)
Definition cache_from_disk `{Libs} (w : World) : Prop :=
  ∀ name m,
    _models w !! name = Some m → disk w !! artifact_path name = Some m.

(** ** A concrete environment *)

Module Sample.

(** Crude rational stand-ins for the numpy functions; the properties
    below hold whatever these functions are. *)
Definition pi : Q := (355 # 113)%Q.

Definition radians (v : value) : outcome Q :=
  match v with
  | VNum q => Ok (q * pi / 180)%Q
  | VStr _ => Raise "ufunc 'radians' not supported for the input types"
  | VNull => Raise "ufunc 'radians' not supported for the input types"
  end.

Definition sin (x : Q) : Q := (x - x ^ 3 / 6)%Q.
Definition cos (x : Q) : Q := (1 - x ^ 2 / 2)%Q.
Definition sqrt (x : Q) : Q :=
  if Qeq_bool x 0 then 0%Q
  else let y := ((1 + x) / 2)%Q in ((y + x / y) / 2)%Q.
Definition arctan2 (y x : Q) : Q :=
  if Qeq_bool x 0 then (pi / 2)%Q else (y / x)%Q.

(** A parser that knows two timestamps. *)
Definition to_datetime (v : value) : outcome Timestamp :=
  match v with
  | VStr "2024-06-15T08:30:00" =>
      Ok {| hour := 8; dayofweek := 5; month := 6; year := 2024 |}
  | VStr "2024-06-17 23:05:00" =>
      Ok {| hour := 23; dayofweek := 0; month := 6; year := 2024 |}
  | VStr s => Raise ("Unknown datetime string format, unable to parse: " +:+ s)
  | VNum _ => Ok {| hour := 0; dayofweek := 3; month := 1; year := 1970 |}
  | VNull => Raise "'NoneType' object has no attribute 'hour'"
  end.

Definition libs : Libs := {|
  app_dir := "/srv/app";
  np_radians := radians;
  np_sin := sin;
  np_cos := cos;
  np_sqrt := sqrt;
  np_arctan2 := arctan2;
  pd_to_datetime := to_datetime
|}.

(** Three regressors: a linear one in the distance, one that answers a
    negative fare, and one whose inference fails. *)
Definition linear : Model :=
  λ features,
    match features with
    | VNum distance :: _ => Ok (Fin ((5 # 2) + distance * (3 # 2))%Q)
    | _ => Raise "could not convert string to float"
    end.
Definition negative : Model := λ _, Ok (Fin (-7 # 3)%Q).
Definition broken : Model := λ _, Raise "X has 16 features, but expects 5".

Definition trip (datetime : value) (name : option string) : TripData :=
  {| fields := list_to_map
       [ ("pickup_latitude", VNum (407128 # 10000));
         ("pickup_longitude", VNum (-740060 # 10000));
         ("dropoff_latitude", VNum (407589 # 10000));
         ("dropoff_longitude", VNum (-739851 # 10000));
         ("pickup_datetime", datetime) ];
     model := name |}.

Definition good_trip : TripData := trip (VStr "2024-06-15T08:30:00") None.
Definition bad_time_trip : TripData := trip (VStr "next tuesday") None.
Definition no_time_trip : TripData :=
  {| fields := list_to_map
       [ ("pickup_latitude", VNum 1); ("pickup_longitude", VNum 2);
         ("dropoff_longitude", VNum 4) ];
     model := Some "xgboost" |}.

Definition on_disk (files : list (string * Model)) : World :=
  {| _models := ∅; disk := list_to_map files; io_log := [] |}.

Definition empty_world : World := on_disk [].

Definition forest_world : World :=
  on_disk [ ("/srv/app/models/random_forest_model.pkl", linear) ].

Definition tree_world : World :=
  on_disk [ ("/srv/app/models/decision_tree_model.pkl", negative);
            ("/srv/app/models/xgboost_model.pkl", linear) ].

Definition linear_world : World :=
  on_disk [ ("/srv/app/models/linear_regression_model.pkl", linear);
            ("/srv/app/models/xgboost_model.pkl", broken) ].

(** The forest was loaded earlier and its artifact deleted since; the
    linear artifact is there. *)
Definition stale_world : World :=
  {| _models := {[ "random_forest" := negative ]};
     disk := {[ "/srv/app/models/linear_regression_model.pkl" := linear ]};
     io_log := [] |}.

(** A trip that ends where it starts, late on a Monday. *)
Definition still_trip (name : option string) : TripData :=
  {| fields := list_to_map
       [ ("pickup_latitude", VNum 0); ("pickup_longitude", VNum 0);
         ("dropoff_latitude", VNum 0); ("dropoff_longitude", VNum 0);
         ("pickup_datetime", VStr "2024-06-17 23:05:00") ];
     model := name |}.

(** Its feature row. *)
Definition still_row : FeatureVector :=
  match @trip_features libs (still_trip None) with
  | Ok features => features
  | Raise _ => []
  end.

(** A request that names its model by an absolute path, and a disk with a
    file of that name outside the model directory. *)
Definition upload_trip : TripData := still_trip (Some "/tmp/upload").

Definition upload_world : World :=
  on_disk [ ("/tmp/upload_model.pkl", negative);
            ("/srv/app/models/random_forest_model.pkl", linear) ].

(** What [/api/models] lists when only the forest artifact is there. *)
Definition forest_listing : list (string * ModelInfo) :=
  map (λ kv, (fst kv,
              set_available (String.eqb (fst kv) "random_forest") (snd kv)))
      models_table.

End Sample.

(** ** Properties *)

Section Properties.

Context `{Libs}.

(** *** The model cache *)

(** [load_model] with its monadic plumbing evaluated. *)
Lemma load_model_eq model_name w :
  load_model model_name w =
    match _models w !! model_name with
    | Some m => (w, Ok (Some m))
    | None =>
        let path := artifact_path model_name in
        match disk w !! path with
        | Some m =>
            (cache_store model_name m
               (log_event (JoblibLoad path)
                  (log_event (PathExists path) w)), Ok (Some m))
        | None => (log_event (PathExists path) w, Ok None)
        end
    end.
Proof.
  unfold load_model, artifact_path.
  generalize (os_path_join MODEL_DIR (model_name +:+ "_model.pkl")).
  intros path. destruct (_models w !! model_name) as [m|]; [done |].
  unfold bind, os_path_exists, joblib_load. cbn.
  destruct (disk w !! path) as [m|] eqn:Hd.
  - rewrite bool_decide_eq_true_2 by eauto. cbn. by rewrite Hd.
  - rewrite bool_decide_eq_false_2; [done | by intros [? ?]].
Qed.

Lemma load_model_cached model_name m w :
  _models w !! model_name = Some m →
  load_model model_name w = (w, Ok (Some m)).
Proof. intros Hc. rewrite load_model_eq. by rewrite Hc. Qed.

Lemma load_model_from_disk model_name m w :
  _models w !! model_name = None →
  disk w !! artifact_path model_name = Some m →
  load_model model_name w =
    (cache_store model_name m
       (log_event (JoblibLoad (artifact_path model_name))
          (log_event (PathExists (artifact_path model_name)) w)),
     Ok (Some m)).
Proof. intros Hc Hd. rewrite load_model_eq. cbv zeta. by rewrite Hc, Hd. Qed.

Lemma load_model_absent model_name w :
  unavailable model_name w →
  load_model model_name w =
    (log_event (PathExists (artifact_path model_name)) w, Ok None).
Proof. intros [Hc Hd]. rewrite load_model_eq. cbv zeta. by rewrite Hc, Hd. Qed.

(** The three cases above are the only ones. *)
Lemma load_model_cases model_name w :
  (∃ m, _models w !! model_name = Some m)
  ∨ (∃ m, _models w !! model_name = None
          ∧ disk w !! artifact_path model_name = Some m)
  ∨ unavailable model_name w.
Proof.
  destruct (_models w !! model_name) as [m|] eqn:Hc; [eauto |].
  destruct (disk w !! artifact_path model_name) as [m|] eqn:Hd.
  - right; left; eauto.
  - right; right; by split.
Qed.

(** C8. [load_model] returns the cached instance, leaving the world (and
    so the I/O trace) untouched, when the identifier is cached; on a miss
    with the artifact on disk it returns the deserialised model and the
    cache gains exactly that entry; on a miss without artifact it returns
    [None] without raising and the cache is unchanged, so a load made
    once the artifact has appeared succeeds and caches the model. *)
Theorem C8_load_model_cache (model_name : string) (w : World) :
  (∀ m, _models w !! model_name = Some m →
        load_model model_name w = (w, Ok (Some m)))
  ∧ (∀ m, _models w !! model_name = None →
          disk w !! artifact_path model_name = Some m →
          ∃ w', load_model model_name w = (w', Ok (Some m))
                ∧ _models w' = <[model_name := m]> (_models w)
                ∧ disk w' = disk w)
  ∧ (unavailable model_name w →
     ∃ w', load_model model_name w = (w', Ok None)
           ∧ _models w' = _models w
           ∧ disk w' = disk w
           ∧ ∀ m w2,
               _models w2 = _models w' →
               disk w2 !! artifact_path model_name = Some m →
               snd (load_model model_name w2) = Ok (Some m)
               ∧ _models (fst (load_model model_name w2)) !! model_name
                 = Some m).
Proof.
  split; [| split].
  - intros m Hc. by apply load_model_cached.
  - intros m Hc Hd. eexists. split; [by apply load_model_from_disk |].
    by split.
  - intros Hun. eexists. split; [by apply load_model_absent |].
    do 2 (split; [done |]). intros m w2 Hsame Hd.
    destruct Hun as [Hc _]. cbn [_models log_event] in Hsame.
    rewrite (load_model_from_disk model_name m w2) by congruence.
    split; [done |]. cbn [fst _models cache_store].
    apply lookup_insert_eq.
Qed.

(** *** The feature builder *)

(** The row [create_features] returns, entry by entry. *)
Lemma create_features_row lat1 lon1 lat2 lon2 datetime features :
  create_features lat1 lon1 lat2 lon2 datetime = Ok features →
  ∃ distance ts,
    haversine_distance lat1 lon1 lat2 lon2 = Ok distance
    ∧ pd_to_datetime datetime = Ok ts
    ∧ features =
        [ VNum distance; VInt (hour ts); VInt (dayofweek ts);
          VInt (month ts); VInt (year ts); lat1; lon1; lat2; lon2;
          VInt (is_morning (hour ts)); VInt (is_afternoon (hour ts));
          VInt (is_evening (hour ts)); VInt (is_night (hour ts));
          VInt (is_weekend (dayofweek ts)); VInt (is_rush_hour (hour ts));
          VInt (is_peak_hour (hour ts)) ].
Proof.
  unfold create_features. intros Hf.
  destruct (haversine_distance lat1 lon1 lat2 lon2) as [distance|];
    [| discriminate].
  destruct (pd_to_datetime datetime) as [ts|]; [| discriminate].
  cbn in Hf. injection Hf as <-. by exists distance, ts.
Qed.

(** A timestamp that does not parse makes [create_features] raise the
    parser's exception, provided numpy accepted the coordinates. *)
Lemma create_features_bad_time lat1 lon1 lat2 lon2 datetime distance msg :
  haversine_distance lat1 lon1 lat2 lon2 = Ok distance →
  pd_to_datetime datetime = Raise msg →
  create_features lat1 lon1 lat2 lon2 datetime = Raise msg.
Proof. intros Hd Ht. unfold create_features. by rewrite Hd, Ht. Qed.

Ltac cases_on_hour :=
  intros; cbn [existsb In] in *;
  repeat match goal with
    | |- context [(?a <=? ?b)] => destruct (Z.leb_spec a b)
    | |- context [(?a <? ?b)] => destruct (Z.ltb_spec a b)
    | |- context [(?a =? ?b)] => destruct (Z.eqb_spec a b)
    | H : context [(?a <=? ?b)] |- _ => destruct (Z.leb_spec a b)
    | H : context [(?a <? ?b)] |- _ => destruct (Z.ltb_spec a b)
    | H : context [(?a =? ?b)] |- _ => destruct (Z.eqb_spec a b)
    end;
  cbn in *;
  first [ lia | repeat (constructor; [lia |]); constructor ].


(** *** Clamping and rounding *)

Lemma round_half_even_nonneg (q : Q) : (0 <= q)%Q → 0 <= round_half_even q.
Proof.
  intros Hq. unfold round_half_even.
  assert (0 <= Qnum q) as Hn.
  { unfold Qle in Hq. cbn in Hq. lia. }
  assert (0 <= Qnum q / Z.pos (Qden q)) as Hfl.
  { apply Z.div_pos; lia. }
  destruct (2 * (Qnum q mod Z.pos (Qden q)) ?= Z.pos (Qden q)); [| lia | lia].
  destruct (Z.even _); lia.
Qed.

Lemma round2_nonneg (q : Q) : (0 <= q)%Q → (0 <= round2 q)%Q.
Proof.
  intros Hq. unfold round2.
  assert (0 <= round_half_even (q * 100)) as Hr.
  { apply round_half_even_nonneg.
    apply Qmult_le_0_compat; [done |]. unfold Qle. cbn. lia. }
  unfold Qle. cbn. lia.
Qed.

(** The clamp maps every float, NaN and the infinities included, to a
    non-negative one. *)
Lemma py_max0_nonneg (x : pynum) : py_nonneg (py_max0 x).
Proof.
  unfold py_max0.
  destruct x as [q| | |]; cbn; try apply Qle_refl; try done.
  destruct (q ?= 0)%Q eqn:Hc; cbn; try apply Qle_refl.
  apply Qlt_le_weak. by apply Qgt_alt.
Qed.

Lemma py_round2_nonneg (x : pynum) : py_nonneg x → py_nonneg (py_round2 x).
Proof. destruct x as [q| | |]; cbn; [apply round2_nonneg | done..]. Qed.

Lemma py_nonneg_not_negative (x : pynum) : py_nonneg x → ¬ py_negative x.
Proof.
  destruct x as [q| | |]; cbn; try tauto.
  intros Hle Hlt. by apply (Qlt_not_le _ _ Hlt).
Qed.

(** *** Field validation *)

Lemma find_first {A} (f : A → bool) (l : list A) (x : A) :
  List.find f l = Some x →
  ∃ before after,
    l = before ++ x :: after
    ∧ Forall (λ y, f y = false) before
    ∧ f x = true.
Proof.
  induction l as [|y l IH]; cbn; [discriminate |].
  destruct (f y) eqn:Hy.
  - intros [= ->]. exists [], l. by repeat split.
  - intros Hfind. destruct (IH Hfind) as (before & after & -> & Hb & Hx).
    exists (y :: before), after. repeat split; [| done]. by constructor.
Qed.

Lemma find_nothing {A} (f : A → bool) (l : list A) :
  List.find f l = None → Forall (λ y, f y = false) l.
Proof.
  induction l as [|y l IH]; cbn; [constructor |].
  destruct (f y) eqn:Hy; [discriminate |]. intros Hfind.
  constructor; [done | by apply IH].
Qed.

Lemma present_of_not_missing (data : TripData) (field : string) :
  bool_decide (fields data !! field = None) = false →
  is_Some (fields data !! field).
Proof.
  intros Hb. apply bool_decide_eq_false in Hb.
  destruct (fields data !! field); [eauto | done].
Qed.

Lemma first_missing_complete (data : TripData) :
  first_missing data = None ↔ complete data.
Proof.
  unfold first_missing, complete. split.
  - intros Hf. apply find_nothing in Hf.
    eapply Forall_impl; [exact Hf |]. intros field.
    apply present_of_not_missing.
  - intros Hall. destruct (List.find _ _) as [field|] eqn:Hf; [| done].
    apply find_first in Hf as (before & after & Heq & _ & Hx).
    apply bool_decide_eq_true in Hx.
    rewrite Heq in Hall. apply Forall_app in Hall as [_ Hall].
    apply Forall_cons in Hall as [[v Hv] _]. congruence.
Qed.

(** C4. When a required field is absent, [predict] answers with the
    client-error status and the message naming the first absent field in
    the order of [required_fields]; the world it returns is the one it
    was given, so no model was loaded, nothing was cached and the disk was
    not touched. *)
Theorem C4_missing_field_first (data : TripData) (w : World) :
  ¬ complete data →
  ∃ before field after,
    required_fields = before ++ field :: after
    ∧ Forall (λ f, is_Some (fields data !! f)) before
    ∧ fields data !! field = None
    ∧ predict data w =
        (w, (ErrorBody ("Missing required field: " +:+ field),
             client_error_status)).
Proof.
  intros Hinc. unfold predict.
  destruct (first_missing data) as [field|] eqn:Hf.
  - unfold first_missing in Hf.
    apply find_first in Hf as (before & after & Heq & Hb & Hx).
    exists before, field, after.
    split; [done |]. split; [| split; [| done]].
    + eapply Forall_impl; [exact Hb |]. intros f.
      apply present_of_not_missing.
    + by apply bool_decide_eq_true in Hx.
  - by apply first_missing_complete in Hf.
Qed.

(** *** Availability introspection *)

Lemma refresh_available_eq (models : list (string * ModelInfo)) (w : World) :
  refresh_available models w =
    (probed (map (λ kv, os_path_join MODEL_DIR (file (snd kv))) models) w,
     Ok (map (λ kv,
               (fst kv,
                set_available
                  (bool_decide
                     (is_Some (disk w !! os_path_join MODEL_DIR
                                                      (file (snd kv)))))
                  (snd kv)))
             models)).
Proof.
  revert w. induction models as [|[name info] rest IH]; intros w.
  - cbn. unfold ret, probed. by destruct w.
  - cbn [refresh_available]. unfold bind at 1. unfold os_path_exists at 1.
    unfold bind at 1. rewrite IH. unfold ret. cbn [map fst snd].
    f_equal. unfold probed, log_event. cbn [_models disk io_log map rev].
    f_equal. by rewrite <- app_assoc.
Qed.

Lemma find_head_filter {A} (f : A → bool) (l : list A) :
  List.find f l = head (List.filter f l).
Proof.
  induction l as [|x l IH]; cbn; [done |]. by destruct (f x).
Qed.

(** What [predict] finds when it falls back on [get_model_info]: the
    identifiers whose artifact is on disk, in enumeration order. *)
Lemma get_model_info_available (w : World) :
  ∃ info,
    get_model_info w = (probed table_paths w, Ok info)
    ∧ head (map fst (List.filter (λ kv, available (snd kv)) info))
      = first_available w.
Proof.
  unfold get_model_info. rewrite refresh_available_eq.
  eexists. split; [reflexivity |].
  unfold first_available. rewrite find_head_filter.
  unfold models_table, enumeration_order, artifact_path.
  cbn [map List.filter fst snd file available set_available String.append].
  repeat (destruct (bool_decide _); cbn [map List.filter head fst snd];
          try done).
Qed.

Lemma first_available_on_disk (w : World) (name : string) :
  first_available w = Some name →
  In name enumeration_order ∧ is_Some (disk w !! artifact_path name).
Proof.
  unfold first_available. intros Hf. apply find_some in Hf as [Hin Hb].
  split; [done |]. by apply bool_decide_eq_true in Hb.
Qed.

(** *** Model resolution of [predict] *)

(** The body of the [try] block when [load_model] finds the requested
    model. *)
Lemma predict_try_found (data : TripData) (w w1 : World) (m : Model) :
  load_model (get_model data "random_forest") w = (w1, Ok (Some m)) →
  predict_try data w =
    (w1, predict_with data (get_model data "random_forest") (Some m)).
Proof. intros Hl. unfold predict_try, bind. by rewrite Hl. Qed.

(** The body of the [try] block when it has to fall back. *)
Lemma predict_try_fallback (data : TripData) (w : World) :
  let requested := get_model data "random_forest" in
  let w2 :=
    probed table_paths (log_event (PathExists (artifact_path requested)) w) in
  unavailable requested w →
  predict_try data w =
    match first_available w with
    | Some name =>
        match load_model name w2 with
        | (w3, Ok model) => (w3, predict_with data name model)
        | (w3, Raise msg) => (w3, Raise msg)
        end
    | None =>
        (w2, Ok (ErrorBody "No models available for prediction",
                 server_error_status))
    end.
Proof.
  intros requested w2 Hun. unfold predict_try. fold requested.
  unfold bind at 1. rewrite (load_model_absent _ _ Hun).
  destruct (get_model_info_available
              (log_event (PathExists (artifact_path requested)) w))
    as (info & Hinfo & Hhead).
  unfold bind at 1. rewrite Hinfo. fold w2.
  change (first_available (log_event _ w)) with (first_available w) in Hhead.
  rewrite <- Hhead.
  destruct (map fst (List.filter _ info)) as [|name rest]; [done |].
  cbn [head]. unfold bind, lift.
  by destruct (load_model name w2) as [w3 [model|msg]].
Qed.

(** Either the body of the [try] block continues with a model that is in
    the cache afterwards, the requested one if [load_model] found it and
    the first available one otherwise, or nothing is available and the
    block returns the no-model error. *)
Lemma predict_try_resolved (data : TripData) (w : World) :
  let requested := get_model data "random_forest" in
  (∃ w1 name m,
     predict_try data w = (w1, predict_with data name (Some m))
     ∧ _models w1 !! name = Some m
     ∧ (name = requested ∧ ¬ unavailable requested w
        ∨ unavailable requested w ∧ first_available w = Some name))
  ∨ (unavailable requested w
     ∧ first_available w = None
     ∧ ∃ w1,
         predict_try data w =
           (w1, Ok (ErrorBody "No models available for prediction",
                    server_error_status))
         ∧ _models w1 = _models w).
Proof.
  intros requested.
  destruct (load_model_cases requested w) as [[m Hc]|[(m & Hc & Hd)|Hun]].
  - left. exists w, requested, m.
    split; [apply predict_try_found; by apply load_model_cached |].
    split; [done |]. left. split; [done |]. intros [Hn _]. congruence.
  - left. eexists _, requested, m.
    split; [apply predict_try_found; by apply load_model_from_disk |].
    split; [apply lookup_insert_eq |].
    left. split; [done |]. intros [_ Hn]. congruence.
  - rewrite (predict_try_fallback data w Hun). fold requested.
    set (w2 := probed table_paths _).
    destruct (first_available w) as [name|] eqn:Hfirst.
    + left. destruct (first_available_on_disk _ _ Hfirst) as [_ [m Hd]].
      destruct (load_model_cases name w2)
        as [[m' Hc']|[(m' & Hc' & Hd')|Hun']].
      * exists w2, name, m'. rewrite (load_model_cached _ _ _ Hc').
        split; [done |]. split; [done |]. by right.
      * eexists _, name, m'. rewrite (load_model_from_disk _ _ _ Hc' Hd').
        split; [done |]. split; [apply lookup_insert_eq |]. by right.
      * destruct Hun' as [_ Hn]. cbn in Hn. congruence.
    + right. do 2 (split; [done |]). by exists w2.
Qed.

(** *** Features of a trip *)

Lemma complete_fields (data : TripData) :
  complete data →
  ∃ lat1 lon1 lat2 lon2 datetime,
    fields data !! "pickup_latitude" = Some lat1
    ∧ fields data !! "pickup_longitude" = Some lon1
    ∧ fields data !! "dropoff_latitude" = Some lat2
    ∧ fields data !! "dropoff_longitude" = Some lon2
    ∧ fields data !! "pickup_datetime" = Some datetime.
Proof.
  unfold complete, required_fields. intros Hall.
  repeat (apply Forall_cons in Hall as [[? ?] Hall]). eauto 10.
Qed.

(** A trip with a field missing has no feature row: the first lookup of
    an absent key raises. *)
Lemma trip_features_incomplete (data : TripData) :
  ¬ complete data → ∃ msg, trip_features data = Raise msg.
Proof.
  intros Hinc. unfold trip_features, getitem.
  destruct (fields data !! "pickup_latitude") eqn:H1; [| by eexists].
  destruct (fields data !! "pickup_longitude") eqn:H2; [| by eexists].
  destruct (fields data !! "dropoff_latitude") eqn:H3; [| by eexists].
  destruct (fields data !! "dropoff_longitude") eqn:H4; [| by eexists].
  destruct (fields data !! "pickup_datetime") eqn:H5; [| by eexists].
  destruct Hinc. unfold complete, required_fields.
  repeat (constructor; [by eauto |]). constructor.
Qed.

(** A trip whose timestamp does not parse has no feature row either; the
    exception is the parser's unless numpy already rejected a
    coordinate. *)
Lemma trip_features_bad_time (data : TripData) (datetime : value)
    (msg : string) :
  fields data !! "pickup_datetime" = Some datetime →
  pd_to_datetime datetime = Raise msg →
  ∃ e, trip_features data = Raise e
       ∧ (∀ d, trip_distance data = Ok d → e = msg).
Proof.
  intros Hdt Hparse. unfold trip_features, trip_distance, getitem.
  rewrite Hdt.
  destruct (fields data !! "pickup_latitude") as [lat1|];
    [| eexists; split; [done | discriminate]].
  destruct (fields data !! "pickup_longitude") as [lon1|];
    [| eexists; split; [done | discriminate]].
  destruct (fields data !! "dropoff_latitude") as [lat2|];
    [| eexists; split; [done | discriminate]].
  destruct (fields data !! "dropoff_longitude") as [lon2|];
    [| eexists; split; [done | discriminate]].
  cbn [obind]. unfold create_features.
  destruct (haversine_distance lat1 lon1 lat2 lon2) as [d|e].
  - cbn [obind]. rewrite Hparse. by exists msg.
  - exists e. split; [done | discriminate].
Qed.

Lemma trip_features_distance (data : TripData) (features : FeatureVector) :
  trip_features data = Ok features → ∃ d, trip_distance data = Ok d.
Proof.
  unfold trip_features, trip_distance.
  destruct (getitem data "pickup_latitude") as [lat1|]; [| discriminate].
  destruct (getitem data "pickup_longitude") as [lon1|]; [| discriminate].
  destruct (getitem data "dropoff_latitude") as [lat2|]; [| discriminate].
  destruct (getitem data "dropoff_longitude") as [lon2|]; [| discriminate].
  destruct (getitem data "pickup_datetime") as [datetime|]; [| discriminate].
  cbn [obind]. unfold create_features.
  destruct (haversine_distance lat1 lon1 lat2 lon2) as [d|]; [| discriminate].
  by exists d.
Qed.

(** Lines 145-169 of [predict] in terms of the feature row. *)
Lemma predict_with_eq (data : TripData) (name : string)
    (model : option Model) :
  predict_with data name model =
    let? features := trip_features data in
    let? raw := model_predict model features in
    let? distance := trip_distance data in
    Ok (PredictBody (py_round2 (py_max0 raw)) name (round2 distance), 200).
Proof.
  unfold predict_with, trip_features, trip_distance.
  destruct (getitem data "pickup_latitude") as [lat1|]; [| done].
  destruct (getitem data "pickup_longitude") as [lon1|]; [| done].
  destruct (getitem data "dropoff_latitude") as [lat2|]; [| done].
  destruct (getitem data "dropoff_longitude") as [lon2|]; [| done].
  by destruct (getitem data "pickup_datetime") as [datetime|].
Qed.

Lemma predict_with_ok (data : TripData) (name : string)
    (model : option Model) (response : Response) :
  predict_with data name model = Ok response →
  ∃ features raw distance,
    trip_features data = Ok features
    ∧ model_predict model features = Ok raw
    ∧ trip_distance data = Ok distance
    ∧ response =
        (PredictBody (py_round2 (py_max0 raw)) name (round2 distance), 200).
Proof.
  rewrite predict_with_eq.
  destruct (trip_features data) as [features|]; [| discriminate].
  cbn [obind].
  destruct (model_predict model features) as [raw|] eqn:Hraw;
    [| discriminate].
  cbn [obind].
  destruct (trip_distance data) as [distance|]; [| discriminate].
  cbn [obind]. intros [= <-]. by exists features, raw, distance.
Qed.

Lemma predict_with_success (data : TripData) (name : string) (m : Model)
    (features : FeatureVector) (raw : pynum) :
  trip_features data = Ok features →
  m features = Ok raw →
  ∃ distance,
    predict_with data name (Some m) =
      Ok (PredictBody (py_round2 (py_max0 raw)) name (round2 distance), 200).
Proof.
  intros Hf Hm. rewrite predict_with_eq.
  destruct (trip_features_distance _ _ Hf) as [d Hd].
  exists d. rewrite Hf. cbn [obind model_predict]. rewrite Hm.
  cbn [obind]. by rewrite Hd.
Qed.

Lemma predict_with_no_features (data : TripData) (name : string)
    (model : option Model) (msg : string) :
  trip_features data = Raise msg → predict_with data name model = Raise msg.
Proof. intros Hf. rewrite predict_with_eq. by rewrite Hf. Qed.

(** [predict] on a complete request is its [try] block with the catch-all
    handler around it. *)
Lemma predict_complete (data : TripData) (w : World) :
  complete data →
  predict data w =
    match predict_try data w with
    | (w', Ok response) => (w', response)
    | (w', Raise msg) => (w', (ErrorBody msg, server_error_status))
    end.
Proof.
  intros Hc. unfold predict.
  by rewrite (proj2 (first_missing_complete data) Hc).
Qed.

(** *** Single prediction *)


(** C1, as the code has it.  On a complete request whose timestamp does
    not parse, [predict] answers with an error body under the server-error
    status, the status it also uses when no model is available; the
    message is the no-model message when no model can be resolved, and
    otherwise, if numpy accepted the coordinates, the parser's. *)
Theorem C1_bad_timestamp_server_status (data : TripData) (w : World)
    (datetime : value) (msg : string) :
  complete data →
  fields data !! "pickup_datetime" = Some datetime →
  pd_to_datetime datetime = Raise msg →
  let requested := get_model data "random_forest" in
  let no_model := unavailable requested w ∧ first_available w = None in
  ∃ w' error,
    predict data w = (w', (ErrorBody error, server_error_status))
    ∧ server_error_status ≠ client_error_status
    ∧ (no_model → error = "No models available for prediction")
    ∧ (¬ no_model → ∀ d, trip_distance data = Ok d → error = msg).
Proof.
  intros Hc Hdt Hparse requested no_model.
  destruct (trip_features_bad_time _ _ _ Hdt Hparse) as (e & Hfeat & He).
  rewrite (predict_complete _ _ Hc).
  destruct (predict_try_resolved data w)
    as [(w1 & name & m & Htry & _ & Hres)|(Hun & Hnone & w1 & Htry & _)];
    rewrite Htry.
  - rewrite (predict_with_no_features _ _ _ _ Hfeat).
    exists w1, e. split; [done |]. split; [done |]. split.
    + intros [Hun Hnone].
      destruct Hres as [[_ Hav]|[_ Hsome]]; [done | congruence].
    + intros _. exact He.
  - exists w1, "No models available for prediction".
    split; [done |]. split; [done |]. split; [done |].
    intros Hno. destruct Hno. by split.
Qed.


(** *** Batch prediction *)

(** One iteration of the batch loop in terms of the feature row: the row
    is built before any model is looked at, and the fallback is one more
    [load_model], of ["linear_regression"]. *)
Lemma batch_item_eq (item : TripData) (w : World) :
  batch_item item w =
    match trip_features item with
    | Raise msg => (w, ErrorEntry msg)
    | Ok features =>
        let requested := get_model item "random_forest" in
        match load_model requested w with
        | (w1, Ok (Some m)) => (w1, entry_of requested (Some m) features)
        | (w1, Ok None) =>
            match load_model "linear_regression" w1 with
            | (w2, Ok model) =>
                (w2, entry_of "linear_regression" model features)
            | (w2, Raise msg) => (w2, ErrorEntry msg)
            end
        | (w1, Raise msg) => (w1, ErrorEntry msg)
        end
    end.
Proof.
  unfold batch_item, batch_item_try, trip_features, entry_of.
  unfold bind, lift, ret.
  destruct (getitem item "pickup_latitude") as [lat1|]; [| done].
  destruct (getitem item "pickup_longitude") as [lon1|]; [| done].
  destruct (getitem item "dropoff_latitude") as [lat2|]; [| done].
  destruct (getitem item "dropoff_longitude") as [lon2|]; [| done].
  destruct (getitem item "pickup_datetime") as [datetime|]; [| done].
  cbn [obind].
  destruct (create_features lat1 lon1 lat2 lon2 datetime) as [features|];
    [| done].
  cbv zeta.
  destruct (load_model (get_model item "random_forest") w)
    as [w1 [[m|]|msg]]; [| | done].
  - cbn [fst snd]. by destruct (model_predict (Some m) features).
  - destruct (load_model "linear_regression" w1) as [w2 [model|msg]];
      [| done].
    cbn [fst snd]. by destruct (model_predict model features).
Qed.

(** An item without a feature row yields an error entry and leaves the
    world alone. *)
Lemma batch_item_no_features (item : TripData) (w : World) (msg : string) :
  trip_features item = Raise msg → batch_item item w = (w, ErrorEntry msg).
Proof. intros Hf. rewrite batch_item_eq. by rewrite Hf. Qed.

(** Whatever the body of the [try] raises becomes the entry. *)
Lemma batch_item_raise (item : TripData) (w w' : World) (msg : string) :
  batch_item_try item w = (w', Raise msg) →
  batch_item item w = (w', ErrorEntry msg).
Proof. intros Ht. unfold batch_item. by rewrite Ht. Qed.

(** The batch item when the requested model is unavailable. *)
Lemma batch_item_fallback (item : TripData) (w : World)
    (features : FeatureVector) :
  trip_features item = Ok features →
  unavailable (get_model item "random_forest") w →
  batch_item item w =
    match load_model "linear_regression"
            (log_event
               (PathExists (artifact_path (get_model item "random_forest")))
               w) with
    | (w2, Ok model) => (w2, entry_of "linear_regression" model features)
    | (w2, Raise msg) => (w2, ErrorEntry msg)
    end.
Proof.
  intros Hf Hun. rewrite batch_item_eq. rewrite Hf. cbv zeta.
  by rewrite (load_model_absent _ _ Hun).
Qed.

Lemma batch_loop_world (items : list TripData) (acc acc' : list entry)
    (w : World) :
  fst (batch_loop items acc w) = fst (batch_loop items acc' w).
Proof.
  revert acc acc' w. induction items as [|item rest IH]; intros acc acc' w.
  - done.
  - cbn [batch_loop]. destruct (batch_item item w) as [w1 e]. apply IH.
Qed.

Lemma world_before_0 (items : list TripData) (w : World) :
  world_before items 0 w = w.
Proof. unfold world_before. by rewrite take_0. Qed.

Lemma world_before_S (item : TripData) (rest : list TripData) (n : nat)
    (w : World) :
  world_before (item :: rest) (S n) w
  = world_before rest n (fst (batch_item item w)).
Proof.
  unfold world_before. cbn [take batch_loop].
  destruct (batch_item item w) as [w1 e]. cbn [fst]. apply batch_loop_world.
Qed.

(** The loop appends exactly one entry per item, in order: the entry of
    item [i] is the one [batch_item] yields in the world left by the items
    before it. *)
Lemma batch_loop_entries (items : list TripData) (acc : list entry)
    (w : World) :
  ∃ out,
    batch_loop items acc w
    = (world_before items (length items) w, acc ++ out)
    ∧ length out = length items
    ∧ ∀ i item,
        items !! i = Some item →
        out !! i = Some (snd (batch_item item (world_before items i w))).
Proof.
  revert acc w. induction items as [|item rest IH]; intros acc w.
  - exists []. rewrite world_before_0, app_nil_r. by repeat split.
  - cbn [batch_loop]. destruct (batch_item item w) as [w1 e] eqn:Hitem.
    destruct (IH (acc ++ [e]) w1) as (out & Hloop & Hlen & Hnth).
    exists (e :: out). rewrite Hloop. cbn [length].
    rewrite world_before_S, Hitem. cbn [fst].
    split; [by rewrite <- app_assoc |]. split; [by rewrite Hlen |].
    intros [|i] item' Hi.
    + cbn in Hi. injection Hi as <-. rewrite world_before_0, Hitem. done.
    + cbn in Hi. rewrite world_before_S, Hitem. cbn [fst]. by apply Hnth.
Qed.


Lemma load_model_resolve (model_name : string) (w : World) :
  ∃ w', load_model model_name w = (w', Ok (resolve model_name w))
        ∧ disk w' = disk w
        ∧ (resolve model_name w = None → _models w' = _models w).
Proof.
  unfold resolve.
  destruct (load_model_cases model_name w)
    as [[m Hc]|[(m & Hc & Hd)|[Hc Hd]]]; rewrite Hc.
  - exists w. by rewrite (load_model_cached _ _ _ Hc).
  - eexists. rewrite (load_model_from_disk _ _ _ Hc Hd), Hd.
    split; [done |]. split; [done | discriminate].
  - eexists. rewrite (load_model_absent _ w) by done. by rewrite Hd.
Qed.

(** C7. For a batch item whose requested (or default) model is neither
    cached nor on disk: once its feature row is built, the one further
    model looked up is ["linear_regression"], whatever else is on disk;
    every result entry the item yields reports ["linear_regression"]; and
    it yields one, with the clamped and rounded estimate, whenever that
    model is cached or on disk and its inference succeeds. *)
Theorem C7_batch_fallback_linear (item : TripData) (w : World) :
  unavailable (get_model item "random_forest") w →
  let w1 :=
    log_event (PathExists (artifact_path (get_model item "random_forest")))
              w in
  (∀ features,
     trip_features item = Ok features →
     ∃ w2,
       load_model "linear_regression" w1
       = (w2, Ok (resolve "linear_regression" w))
       ∧ batch_item item w
         = (w2, entry_of "linear_regression"
                         (resolve "linear_regression" w) features))
  ∧ (∀ w' prediction model_used,
       batch_item item w = (w', ResultEntry prediction model_used) →
       model_used = "linear_regression")
  ∧ (∀ m features raw,
       resolve "linear_regression" w = Some m →
       trip_features item = Ok features →
       m features = Ok raw →
       snd (batch_item item w)
       = ResultEntry (py_round2 (py_max0 raw)) "linear_regression").
Proof.
  intros Hun w1.
  assert (∀ features,
            trip_features item = Ok features →
            ∃ w2,
              load_model "linear_regression" w1
              = (w2, Ok (resolve "linear_regression" w))
              ∧ batch_item item w
                = (w2, entry_of "linear_regression"
                                (resolve "linear_regression" w) features))
    as Hstep.
  { intros features Hf.
    destruct (load_model_resolve "linear_regression" w1) as (w2 & Hl & _).
    change (resolve "linear_regression" w1)
      with (resolve "linear_regression" w) in Hl.
    exists w2. split; [done |].
    rewrite (batch_item_fallback _ _ _ Hf Hun). fold w1. by rewrite Hl. }
  split; [done |]. split.
  - intros w' prediction model_used.
    destruct (trip_features item) as [features|msg] eqn:Hf.
    + destruct (Hstep features eq_refl) as (w2 & _ & ->).
      unfold entry_of. destruct (model_predict _ _); [| discriminate].
      by intros [= _ _ <-].
    + by rewrite (batch_item_no_features _ _ _ Hf).
  - intros m features raw Hres Hf Hraw.
    destruct (Hstep features Hf) as (w2 & _ & ->).
    rewrite Hres. unfold entry_of. cbn [snd model_predict]. by rewrite Hraw.
Qed.

(** C10. A batch item whose requested (or default) model and whose
    ["linear_regression"] fallback are both neither cached nor on disk
    yields an error entry at its own position, the list keeping one entry
    per item; with a feature row built, the error is that of calling
    [predict] on [None].  The batch route has no no-model answer: its only
    error body is the missing-array one. *)
Theorem C10_batch_no_model_is_item_error (items : list TripData)
    (w : World) (i : nat) (item : TripData) :
  items !! i = Some item →
  unavailable (get_model item "random_forest") (world_before items i w) →
  unavailable "linear_regression" (world_before items i w) →
  (∃ w' results msg,
     batch_predict (Some items) w = (w', (BatchBody results, 200))
     ∧ length results = length items
     ∧ results !! i = Some (ErrorEntry msg)
     ∧ (∀ features,
          trip_features item = Ok features →
          msg = "'NoneType' object has no attribute 'predict'"))
  ∧ (∀ predictions w0 w' error status,
       batch_predict predictions w0 = (w', (ErrorBody error, status)) →
       predictions = None
       ∧ error = "Missing predictions array"
       ∧ status = client_error_status).
Proof.
  intros Hi Hun Hlin. split.
  - unfold batch_predict.
    destruct (batch_loop_entries items [] w) as (out & Hloop & Hlen & Hnth).
    rewrite Hloop. cbn [app]. set (wi := world_before items i w) in *.
    assert (∃ msg, snd (batch_item item wi) = ErrorEntry msg
                   ∧ ∀ features,
                       trip_features item = Ok features →
                       msg = "'NoneType' object has no attribute 'predict'")
      as (msg & Hentry & Hmsg).
    { destruct (trip_features item) as [features|e] eqn:Hf.
      - rewrite (batch_item_fallback _ _ _ Hf Hun).
        rewrite (load_model_absent "linear_regression" _) by done.
        by eexists.
      - rewrite (batch_item_no_features _ _ _ Hf). exists e.
        split; [done | discriminate]. }
    eexists _, out, msg. split; [done |]. split; [done |].
    split; [| done]. rewrite (Hnth i item Hi). fold wi. by rewrite Hentry.
  - intros predictions w0 w' error status. unfold batch_predict.
    destruct predictions as [items'|].
    + by destruct (batch_loop items' [] w0).
    + by intros [= _ <- <-].
Qed.

(** *** How the routes treat the world *)

Lemma evolves_refl (w : World) : evolves w w.
Proof. by repeat split. Qed.

Lemma evolves_trans (w1 w2 w3 : World) :
  evolves w1 w2 → evolves w2 w3 → evolves w1 w3.
Proof.
  intros (Hd1 & Hc1 & Hl1) (Hd2 & Hc2 & Hl2). split; [congruence |].
  split; [by etrans | by etrans].
Qed.

Lemma evolves_log_event (e : io_event) (w : World) :
  evolves w (log_event e w).
Proof.
  split; [done |]. split; [done |]. cbn. by apply suffix_cons_r.
Qed.

Lemma evolves_probed (paths : list string) (w : World) :
  evolves w (probed paths w).
Proof.
  split; [done |]. split; [done |]. cbn. by apply suffix_app_r.
Qed.

Lemma evolves_cache_store (name : string) (m : Model) (w : World) :
  _models w !! name = None → evolves w (cache_store name m w).
Proof.
  intros Hc. split; [done |]. split; [| done]. cbn.
  by apply insert_subseteq.
Qed.

Lemma load_model_evolves (model_name : string) (w : World) :
  evolves w (fst (load_model model_name w)).
Proof.
  destruct (load_model_cases model_name w)
    as [[m Hc]|[(m & Hc & Hd)|Hun]].
  - rewrite (load_model_cached _ _ _ Hc). apply evolves_refl.
  - rewrite (load_model_from_disk _ _ _ Hc Hd). cbn [fst].
    eapply evolves_trans; [apply evolves_log_event |].
    eapply evolves_trans; [apply evolves_log_event |].
    by apply evolves_cache_store.
  - rewrite (load_model_absent _ _ Hun). apply evolves_log_event.
Qed.

Lemma load_model_other_keys (model_name k : string) (w : World) :
  k ≠ model_name →
  _models (fst (load_model model_name w)) !! k = _models w !! k.
Proof.
  intros Hk.
  destruct (load_model_cases model_name w)
    as [[m Hc]|[(m & Hc & Hd)|Hun]].
  - by rewrite (load_model_cached _ _ _ Hc).
  - rewrite (load_model_from_disk _ _ _ Hc Hd). cbn.
    by apply lookup_insert_ne.
  - by rewrite (load_model_absent _ _ Hun).
Qed.

Lemma load_model_own_key (model_name : string) (w : World) :
  _models (fst (load_model model_name w)) !! model_name
  = resolve model_name w.
Proof.
  unfold resolve.
  destruct (load_model_cases model_name w)
    as [[m Hc]|[(m & Hc & Hd)|[Hc Hd]]]; rewrite Hc.
  - by rewrite (load_model_cached _ _ _ Hc).
  - rewrite (load_model_from_disk _ _ _ Hc Hd), Hd. cbn.
    apply lookup_insert_eq.
  - by rewrite (load_model_absent _ w), Hd.
Qed.


(** X2. Once [load_model] has returned a model, loading the same name
    again is a pure cache hit: the same model and the same world, so no
    further file-system call. *)
Theorem load_model_again (model_name : string) (w w1 : World) (m : Model) :
  load_model model_name w = (w1, Ok (Some m)) →
  load_model model_name w1 = (w1, Ok (Some m)).
Proof.
  intros Hload. apply load_model_cached.
  pose proof (load_model_own_key model_name w) as Hown.
  destruct (load_model_resolve model_name w) as (w1' & Hl & _).
  rewrite Hload in Hown, Hl. cbn [fst] in Hown. congruence.
Qed.

(** *** The read-only routes *)

Lemma table_paths_eq : table_paths = map artifact_path enumeration_order.
Proof. reflexivity. Qed.

(** The table [get_model_info] returns, in closed form. *)
Lemma get_model_info_eq (w : World) :
  get_model_info w =
    (probed table_paths w,
     Ok (map (λ kv,
               (fst kv,
                set_available
                  (bool_decide (is_Some (disk w !! artifact_path (fst kv))))
                  (snd kv)))
             models_table)).
Proof.
  unfold get_model_info. rewrite refresh_available_eq. reflexivity.
Qed.

Lemma available_count_eq (w : World) :
  length
    (List.filter (λ kv : string * ModelInfo, available (snd kv))
       (map (λ kv,
              (fst kv,
               set_available
                 (bool_decide (is_Some (disk w !! artifact_path (fst kv))))
                 (snd kv)))
            models_table))
  = length
      (List.filter
         (λ name, bool_decide (is_Some (disk w !! artifact_path name)))
         enumeration_order).
Proof.
  unfold models_table, enumeration_order.
  cbn [map List.filter fst snd available set_available].
  repeat (destruct (bool_decide _); cbn [List.filter length]); done.
Qed.

(** X3. [/api/models] answers 200 with the dict of [get_model_info]: the
    four entries of the table in their insertion order, file names and
    metrics as written in the source, each flagged available exactly when
    the file [load_model] would read for that name is on disk, whatever
    the cache holds; it asks [os.path.exists] once per entry, in that
    order, and loads nothing. *)
Theorem list_models_report (w : World) :
  ∃ models,
    list_models w = (probed table_paths w, Ok (ModelsBody models, 200))
    ∧ map fst models = enumeration_order
    ∧ models
      = map (λ kv,
              (fst kv,
               set_available
                 (bool_decide (is_Some (disk w !! artifact_path (fst kv))))
                 (snd kv)))
            models_table
    ∧ _models (probed table_paths w) = _models w
    ∧ disk (probed table_paths w) = disk w
    ∧ io_log (probed table_paths w)
      = rev (map PathExists (map artifact_path enumeration_order))
        ++ io_log w.
Proof.
  eexists. unfold list_models, bind, ret. rewrite get_model_info_eq.
  split; [reflexivity |]. split; [reflexivity |]. by repeat split.
Qed.

(** X4. [/health] always answers 200 and ["healthy"], with 4 as the
    total and, as the available count, the number of the four artifacts
    on disk; the count is 0 exactly when no artifact is on disk, in which
    case the answer is still ["healthy"]; the cache plays no part. *)
Theorem health_check_counts (w : World) :
  ∃ n,
    health_check w
    = (probed table_paths w, Ok (HealthBody "healthy" n 4, 200))
    ∧ n = Z.of_nat
            (length
               (List.filter
                  (λ name,
                     bool_decide (is_Some (disk w !! artifact_path name)))
                  enumeration_order))
    ∧ 0 <= n <= 4
    ∧ (n = 0 ↔ first_available w = None).
Proof.
  eexists. unfold health_check, bind, ret. rewrite get_model_info_eq.
  rewrite available_count_eq. split; [reflexivity |].
  split; [reflexivity |].
  unfold first_available. rewrite find_head_filter.
  unfold enumeration_order. cbn [List.filter].
  repeat (destruct (bool_decide _); cbn [List.filter length head]);
    (split; [lia |]); split; (done || lia).
Qed.


(** *** Single prediction and the world *)

Lemma first_available_disk (w w' : World) :
  disk w' = disk w → first_available w' = first_available w.
Proof. intros Hd. unfold first_available. by rewrite Hd. Qed.

Lemma unavailable_same (model_name : string) (w w' : World) :
  disk w' = disk w →
  _models w' !! model_name = _models w !! model_name →
  unavailable model_name w → unavailable model_name w'.
Proof. intros Hd Hc [Hn Hdn]. split; congruence. Qed.

Lemma predict_handled (data : TripData) (w : World) :
  complete data →
  predict data w
  = (fst (predict_try data w), handled (snd (predict_try data w))).
Proof.
  intros Hc. rewrite (predict_complete _ _ Hc).
  by destruct (predict_try data w) as [w' [response|msg]].
Qed.

(** The [try] block of [predict] when the requested model resolves. *)
Lemma predict_try_resolves (data : TripData) (w : World) (m : Model) :
  resolve (get_model data "random_forest") w = Some m →
  predict_try data w
  = (fst (load_model (get_model data "random_forest") w),
     predict_with data (get_model data "random_forest") (Some m)).
Proof.
  intros Hres.
  destruct (load_model_resolve (get_model data "random_forest") w)
    as (w1 & Hl & _).
  rewrite Hres in Hl. rewrite (predict_try_found _ _ _ _ Hl).
  by rewrite Hl.
Qed.

(** The [try] block of [predict] when it falls back on an available
    model. *)
Lemma predict_try_falls_back (data : TripData) (w : World) (name : string) :
  let requested := get_model data "random_forest" in
  let w2 :=
    probed table_paths (log_event (PathExists (artifact_path requested)) w) in
  unavailable requested w →
  first_available w = Some name →
  ∃ m,
    resolve name w = Some m
    ∧ name ≠ requested
    ∧ predict_try data w
      = (fst (load_model name w2), predict_with data name (Some m)).
Proof.
  intros requested w2 Hun Hfirst.
  destruct (first_available_on_disk _ _ Hfirst) as [_ [md Hd]].
  assert (∃ m, resolve name w = Some m) as [m Hres].
  { unfold resolve. destruct (_models w !! name); eauto. }
  exists m. split; [done |]. split.
  { intros ->. destruct Hun as [_ Hn]. fold requested in Hd. congruence. }
  rewrite (predict_try_fallback data w Hun), Hfirst. fold requested w2.
  destruct (load_model_resolve name w2) as (w3 & Hl & _).
  change (resolve name w2) with (resolve name w) in Hl.
  rewrite Hl, Hres. done.
Qed.

(** What the [try] block of [predict] answers, from what [load_model]
    resolves. *)
Lemma predict_try_response (data : TripData) (w : World) :
  snd (predict_try data w)
  = match resolve (get_model data "random_forest") w with
    | Some m => predict_with data (get_model data "random_forest") (Some m)
    | None =>
        match first_available w with
        | Some name => predict_with data name (resolve name w)
        | None =>
            Ok (ErrorBody "No models available for prediction",
                server_error_status)
        end
    end.
Proof.
  set (requested := get_model data "random_forest").
  destruct (resolve requested w) as [m|] eqn:Hres.
  - by rewrite (predict_try_resolves _ _ _ Hres).
  - assert (unavailable requested w) as Hun.
    { unfold resolve in Hres. split; by destruct (_models w !! requested). }
    destruct (first_available w) as [name|] eqn:Hfirst.
    + destruct (predict_try_falls_back data w name Hun Hfirst)
        as (m & Hm & _ & ->).
      by rewrite Hm.
    + by rewrite (predict_try_fallback data w Hun), Hfirst.
Qed.

Lemma predict_with_shape (data : TripData) (name : string)
    (model : option Model) :
  (∃ msg, predict_with data name model = Raise msg)
  ∨ (∃ prediction distance_km,
       predict_with data name model
       = Ok (PredictBody prediction name distance_km, 200)).
Proof.
  destruct (predict_with data name model) as [response|msg] eqn:Hp;
    [| eauto].
  apply predict_with_ok in Hp as (? & ? & ? & _ & _ & _ & ->). eauto.
Qed.

(** X6. The status of [predict] goes with its body: a prediction body
    comes with 200 and only for a request with all five fields; an error
    body comes with the client-error status for an incomplete request,
    the world untouched, and with the server-error status for a complete
    one; the body is never a batch body. *)
Theorem predict_status_matches_body (data : TripData) (w : World) :
  match snd (predict data w) with
  | (PredictBody _ _ _, status) => status = 200 ∧ complete data
  | (ErrorBody _, status) =>
      status = client_error_status
      ∧ ¬ complete data ∧ fst (predict data w) = w
      ∨ status = server_error_status ∧ complete data
  | (BatchBody _, _) => False
  end.
Proof.
  destruct (decide (complete data)) as [Hc|Hinc].
  - rewrite (predict_handled _ _ Hc). cbn [snd].
    rewrite predict_try_response.
    destruct (resolve _ w) as [m|].
    { destruct (predict_with_shape data (get_model data "random_forest")
                  (Some m)) as [[msg ->]|(p & d & ->)]; cbn; auto. }
    destruct (first_available w) as [name|]; [| cbn; auto].
    destruct (predict_with_shape data name (resolve name w))
      as [[msg ->]|(p & d & ->)]; cbn; auto.
  - unfold predict. destruct (first_missing data) eqn:Hf.
    + cbn. auto.
    + by apply first_missing_complete in Hf.
Qed.


(** X8. [predict] loads the model before it looks at the trip: for a
    complete request whose feature row cannot be built, the requested
    model has been deserialised and cached by the time the error is
    answered; the batch loop builds the feature row first and, for the
    same item, leaves the world as it was. *)
Theorem predict_loads_before_features (data : TripData) (w : World)
    (m : Model) (msg : string) :
  let requested := get_model data "random_forest" in
  complete data →
  _models w !! requested = None →
  disk w !! artifact_path requested = Some m →
  trip_features data = Raise msg →
  predict data w
  = (cache_store requested m
       (log_event (JoblibLoad (artifact_path requested))
          (log_event (PathExists (artifact_path requested)) w)),
     (ErrorBody msg, server_error_status))
  ∧ batch_item data w = (w, ErrorEntry msg).
Proof.
  intros requested Hc Hn Hd Hf. split.
  - rewrite (predict_handled _ _ Hc).
    assert (resolve requested w = Some m) as Hres.
    { unfold resolve. by rewrite Hn. }
    rewrite (predict_try_resolves _ _ _ Hres). fold requested.
    rewrite (load_model_from_disk _ _ _ Hn Hd).
    by rewrite (predict_with_no_features _ _ _ _ Hf).
  - by apply batch_item_no_features.
Qed.

Lemma resolve_own_key (model_name : string) (w : World) (m : Model) :
  resolve model_name w = Some m →
  resolve model_name (fst (load_model model_name w)) = Some m.
Proof.
  intros Hres. unfold resolve at 1.
  by rewrite load_model_own_key, Hres.
Qed.

(** X9. Asking [predict] the same request again, in the world the first
    call left behind, gives the same response. *)
Theorem predict_repeatable (data : TripData) (w : World) :
  snd (predict data (fst (predict data w))) = snd (predict data w).
Proof.
  destruct (decide (complete data)) as [Hc|Hinc].
  2:{ unfold predict. destruct (first_missing data) eqn:Hf; [done |].
      by apply first_missing_complete in Hf. }
  rewrite !(predict_handled _ _ Hc). cbn [fst snd]. f_equal.
  rewrite (predict_try_response data w).
  set (requested := get_model data "random_forest").
  destruct (resolve requested w) as [m|] eqn:Hres.
  - rewrite (predict_try_resolves _ _ _ Hres). cbn [fst].
    rewrite predict_try_response. fold requested.
    by rewrite (resolve_own_key _ _ _ Hres).
  - assert (unavailable requested w) as Hun.
    { unfold resolve in Hres. split; by destruct (_models w !! requested). }
    destruct (first_available w) as [name|] eqn:Hfirst.
    + destruct (predict_try_falls_back data w name Hun Hfirst)
        as (m & Hm & Hne & ->).
      cbn [fst]. fold requested.
      set (w2 := probed table_paths _).
      destruct (load_model_evolves name w2) as (Hd & _ & _).
      rewrite predict_try_response. fold requested.
      assert (resolve requested (fst (load_model name w2)) = None) as ->.
      { unfold resolve.
        rewrite (load_model_other_keys name requested w2) by done.
        rewrite Hd. exact Hres. }
      rewrite (first_available_disk w (fst (load_model name w2)) Hd), Hfirst.
      rewrite Hm. change (resolve name w) with (resolve name w2) in Hm.
      by rewrite (resolve_own_key _ _ _ Hm).
    + rewrite (predict_try_fallback data w Hun), Hfirst. cbn [fst].
      rewrite predict_try_response. fold requested.
      set (w2 := probed table_paths _).
      change (resolve requested w2) with (resolve requested w).
      change (first_available w2) with (first_available w).
      by rewrite Hres, Hfirst.
Qed.

Lemma resolve_stable (name : string) (w w' : World) :
  cache_from_disk w → cache_from_disk w' → evolves w w' →
  resolve name w' = resolve name w.
Proof.
  intros Hs Hs' (Hd & Hsub & _). unfold resolve.
  destruct (_models w' !! name) as [m'|] eqn:Hc'.
  - apply Hs' in Hc'. rewrite Hd in Hc'.
    destruct (_models w !! name) as [m|] eqn:Hc; [| done].
    apply Hs in Hc. congruence.
  - rewrite (lookup_weaken_None _ _ _ Hc' Hsub). by rewrite Hd.
Qed.

(** X10. As long as every cached model is the one its artifact holds,
    the response of [predict] does not depend on what was asked before:
    it is the same in any later world. *)
Theorem predict_history_independent (data : TripData) (w w' : World) :
  cache_from_disk w → cache_from_disk w' → evolves w w' →
  snd (predict data w') = snd (predict data w).
Proof.
  intros Hs Hs' Hev.
  destruct (decide (complete data)) as [Hc|Hinc].
  2:{ unfold predict. destruct (first_missing data) eqn:Hf; [done |].
      by apply first_missing_complete in Hf. }
  rewrite !(predict_handled _ _ Hc). cbn [snd]. f_equal.
  rewrite !predict_try_response.
  rewrite (resolve_stable _ _ _ Hs Hs' Hev).
  rewrite (first_available_disk w w' (proj1 Hev)).
  destruct (resolve _ w); [done |].
  destruct (first_available w) as [name|]; [| done].
  by rewrite (resolve_stable _ _ _ Hs Hs' Hev).
Qed.

(** *** What every route does to the world *)

Lemma probed_nil (w : World) : probed [] w = w.
Proof. by destruct w. Qed.

Lemma probed_cons (path : string) (paths : list string) (w : World) :
  probed (path :: paths) w = probed paths (log_event (PathExists path) w).
Proof.
  unfold probed, log_event. cbn [_models disk io_log map rev].
  by rewrite <- app_assoc.
Qed.

Lemma predict_world (data : TripData) (w : World) :
  let requested := get_model data "random_forest" in
  let w2 :=
    probed table_paths (log_event (PathExists (artifact_path requested)) w) in
  fst (predict data w) = w
  ∨ fst (predict data w) = fst (load_model requested w)
  ∨ fst (predict data w) = w2
  ∨ ∃ name, fst (predict data w) = fst (load_model name w2).
Proof.
  intros requested w2.
  destruct (decide (complete data)) as [Hc|Hinc].
  2:{ left. unfold predict. destruct (first_missing data) eqn:Hf; [done |].
      by apply first_missing_complete in Hf. }
  rewrite (predict_handled _ _ Hc). cbn [fst].
  destruct (resolve requested w) as [m|] eqn:Hres.
  { right; left. by rewrite (predict_try_resolves _ _ _ Hres). }
  assert (unavailable requested w) as Hun.
  { unfold resolve in Hres. split; by destruct (_models w !! requested). }
  destruct (first_available w) as [name|] eqn:Hfirst.
  - do 3 right. exists name.
    by destruct (predict_try_falls_back data w name Hun Hfirst)
      as (m & _ & _ & ->).
  - right; right; left.
    by rewrite (predict_try_fallback data w Hun), Hfirst.
Qed.

Lemma batch_item_world (item : TripData) (w : World) :
  let requested := get_model item "random_forest" in
  fst (batch_item item w) = w
  ∨ fst (batch_item item w) = fst (load_model requested w)
  ∨ fst (batch_item item w)
    = fst (load_model "linear_regression" (fst (load_model requested w))).
Proof.
  intros requested. rewrite batch_item_eq.
  destruct (trip_features item) as [features|msg]; [| by left].
  cbv zeta. fold requested.
  destruct (load_model_resolve requested w) as (w1 & Hl & _).
  rewrite Hl. cbn [fst].
  destruct (resolve requested w) as [m|]; [by right; left |].
  right; right.
  destruct (load_model_resolve "linear_regression" w1) as (w2 & Hl2 & _).
  by rewrite Hl2.
Qed.

Lemma list_models_world (w : World) :
  fst (list_models w) = probed table_paths w.
Proof. unfold list_models, bind. by rewrite get_model_info_eq. Qed.

Lemma health_check_world (w : World) :
  fst (health_check w) = probed table_paths w.
Proof. unfold health_check, bind. by rewrite get_model_info_eq. Qed.

Lemma batch_predict_world (predictions : option (list TripData))
    (w : World) :
  fst (batch_predict predictions w)
  = match predictions with
    | Some items => fst (batch_loop items [] w)
    | None => w
    end.
Proof.
  unfold batch_predict. destruct predictions as [items|]; [| done].
  by destruct (batch_loop items [] w).
Qed.

(** A property of worlds that loading a model and asking for a path keep
    is kept by every route. *)
Section Invariant.

Variable inv : World → Prop.
Hypothesis inv_load_model :
  ∀ name w, inv w → inv (fst (load_model name w)).
Hypothesis inv_path_exists :
  ∀ path w, inv w → inv (log_event (PathExists path) w).

Lemma inv_probed (paths : list string) (w : World) :
  inv w → inv (probed paths w).
Proof.
  revert w. induction paths as [|path paths IH]; intros w Hw.
  - by rewrite probed_nil.
  - rewrite probed_cons. auto.
Qed.

Lemma inv_predict (data : TripData) (w : World) :
  inv w → inv (fst (predict data w)).
Proof.
  intros Hw.
  destruct (predict_world data w) as [->|[->|[->|[name ->]]]];
    auto using inv_probed.
Qed.

Lemma inv_batch_item (item : TripData) (w : World) :
  inv w → inv (fst (batch_item item w)).
Proof.
  intros Hw. destruct (batch_item_world item w) as [->|[->| ->]]; auto.
Qed.

Lemma inv_batch_loop (items : list TripData) (acc : list entry) (w : World) :
  inv w → inv (fst (batch_loop items acc w)).
Proof.
  revert acc w. induction items as [|item rest IH]; intros acc w Hw;
    [done |].
  cbn [batch_loop].
  pose proof (inv_batch_item item w Hw) as Hi.
  destruct (batch_item item w) as [w' e]. by apply IH.
Qed.

Lemma inv_routes (w : World) :
  inv w →
  (∀ data, inv (fst (predict data w)))
  ∧ (∀ predictions, inv (fst (batch_predict predictions w)))
  ∧ inv (fst (list_models w))
  ∧ inv (fst (health_check w)).
Proof.
  intros Hw. split; [intros data; by apply inv_predict |].
  split.
  { intros predictions. rewrite batch_predict_world.
    destruct predictions; [by apply inv_batch_loop | done]. }
  rewrite list_models_world, health_check_world.
  split; by apply inv_probed.
Qed.

End Invariant.

Lemma predict_evolves (data : TripData) (w : World) :
  evolves w (fst (predict data w)).
Proof.
  apply (inv_predict (evolves w)); [| | apply evolves_refl].
  - intros name w' Hw'.
    eapply evolves_trans; [exact Hw' | apply load_model_evolves].
  - intros path w' Hw'.
    eapply evolves_trans; [exact Hw' | apply evolves_log_event].
Qed.

(** X11. No route touches the disk, drops or replaces a cached model, or
    removes anything from the I/O trace. *)
Theorem routes_only_add (w : World) :
  (∀ data, evolves w (fst (predict data w)))
  ∧ (∀ predictions, evolves w (fst (batch_predict predictions w)))
  ∧ evolves w (fst (list_models w))
  ∧ evolves w (fst (health_check w)).
Proof.
  apply (inv_routes (evolves w)).
  - intros name w' Hw'.
    eapply evolves_trans; [exact Hw' | apply load_model_evolves].
  - intros path w' Hw'.
    eapply evolves_trans; [exact Hw' | apply evolves_log_event].
  - apply evolves_refl.
Qed.

Lemma cache_from_disk_load_model (name : string) (w : World) :
  cache_from_disk w → cache_from_disk (fst (load_model name w)).
Proof.
  intros Hs. rewrite load_model_eq.
  destruct (_models w !! name) as [m|] eqn:Hc; [done |].
  cbv zeta. destruct (disk w !! artifact_path name) as [m|] eqn:Hd.
  - intros k m'. cbn [fst cache_store log_event _models disk].
    destruct (decide (k = name)) as [->|Hne].
    + rewrite lookup_insert_eq. congruence.
    + rewrite lookup_insert_ne by done. apply Hs.
  - exact Hs.
Qed.

Lemma predict_cache_from_disk (data : TripData) (w : World) :
  cache_from_disk w → cache_from_disk (fst (predict data w)).
Proof.
  apply (inv_predict cache_from_disk).
  - intros name w'. apply cache_from_disk_load_model.
  - intros path w' Hw'. exact Hw'.
Qed.

(** X12. If every cached model is the one its artifact holds, this is
    still so after [load_model] and after each route: the cache only ever
    receives what [joblib.load] read from the artifact of the name. *)
Theorem routes_keep_cache_from_disk (w : World) :
  cache_from_disk w →
  (∀ name, cache_from_disk (fst (load_model name w)))
  ∧ (∀ data, cache_from_disk (fst (predict data w)))
  ∧ (∀ predictions, cache_from_disk (fst (batch_predict predictions w)))
  ∧ cache_from_disk (fst (list_models w))
  ∧ cache_from_disk (fst (health_check w)).
Proof.
  intros Hs.
  split; [intros name; by apply cache_from_disk_load_model |].
  apply (inv_routes cache_from_disk); [| | done].
  - intros name w'. apply cache_from_disk_load_model.
  - intros path w' Hw'. exact Hw'.
Qed.

(** *** The batch loop *)

(** The entry of one item, from what [load_model] resolves. *)
Lemma batch_item_entry (item : TripData) (w : World) :
  snd (batch_item item w)
  = match trip_features item with
    | Raise msg => ErrorEntry msg
    | Ok features =>
        match resolve (get_model item "random_forest") w with
        | Some m =>
            entry_of (get_model item "random_forest") (Some m) features
        | None =>
            entry_of "linear_regression" (resolve "linear_regression" w)
                     features
        end
    end.
Proof.
  rewrite batch_item_eq.
  destruct (trip_features item) as [features|msg]; [| done].
  cbv zeta. set (requested := get_model item "random_forest").
  destruct (load_model_resolve requested w) as (w1 & Hl & Hd & Hsame).
  rewrite Hl. destruct (resolve requested w) as [m|]; [done |].
  destruct (load_model_resolve "linear_regression" w1) as (w2 & Hl2 & _).
  rewrite Hl2. cbn [snd].
  assert (resolve "linear_regression" w1 = resolve "linear_regression" w)
    as ->; [| done].
  unfold resolve. by rewrite (Hsame eq_refl), Hd.
Qed.

Lemma batch_item_evolves (item : TripData) (w : World) :
  evolves w (fst (batch_item item w)).
Proof.
  apply (inv_batch_item (evolves w)); [| apply evolves_refl].
  intros name w' Hw'.
  eapply evolves_trans; [exact Hw' | apply load_model_evolves].
Qed.

Lemma batch_item_cache_from_disk (item : TripData) (w : World) :
  cache_from_disk w → cache_from_disk (fst (batch_item item w)).
Proof.
  apply (inv_batch_item cache_from_disk).
  intros name w'. apply cache_from_disk_load_model.
Qed.

Lemma batch_item_stable (item : TripData) (w w' : World) :
  cache_from_disk w → cache_from_disk w' → evolves w w' →
  snd (batch_item item w') = snd (batch_item item w).
Proof.
  intros Hs Hs' Hev. rewrite !batch_item_entry.
  destruct (trip_features item) as [features|msg]; [| done].
  by rewrite !(resolve_stable _ _ _ Hs Hs' Hev).
Qed.

Lemma batch_loop_acc (items : list TripData) (acc : list entry)
    (w : World) :
  batch_loop items acc w
  = (fst (batch_loop items [] w), acc ++ snd (batch_loop items [] w)).
Proof.
  revert acc w. induction items as [|item rest IH]; intros acc w;
    cbn [batch_loop].
  - cbn [fst snd]. by rewrite app_nil_r.
  - destruct (batch_item item w) as [w' e].
    rewrite (IH (acc ++ [e])), (IH ([] ++ [e])). cbn [fst snd app].
    by rewrite <- app_assoc.
Qed.

Lemma batch_loop_app (xs ys : list TripData) (acc : list entry)
    (w : World) :
  batch_loop (xs ++ ys) acc w
  = batch_loop ys (snd (batch_loop xs acc w)) (fst (batch_loop xs acc w)).
Proof.
  revert acc w. induction xs as [|item rest IH]; intros acc w; [done |].
  cbn [batch_loop app]. destruct (batch_item item w) as [w' e]. apply IH.
Qed.

Lemma batch_loop_independent (w0 : World) (items : list TripData)
    (acc : list entry) (w : World) :
  cache_from_disk w0 → cache_from_disk w → evolves w0 w →
  snd (batch_loop items acc w)
  = acc ++ map (λ item, snd (batch_item item w0)) items.
Proof.
  intros Hs0. revert acc w.
  induction items as [|item rest IH]; intros acc w Hs Hev;
    cbn [batch_loop map].
  - by rewrite app_nil_r.
  - pose proof (batch_item_stable item w0 w Hs0 Hs Hev) as He.
    pose proof (batch_item_evolves item w) as Hev'.
    pose proof (batch_item_cache_from_disk item w Hs) as Hs'.
    destruct (batch_item item w) as [w' e]. cbn [fst snd] in *.
    rewrite IH; [| done | by eapply evolves_trans].
    rewrite <- app_assoc. by rewrite He.
Qed.



Lemma trip_features_first_missing (item : TripData) :
  ¬ complete item →
  ∃ before field after,
    required_fields = before ++ field :: after
    ∧ Forall (λ f, is_Some (fields item !! f)) before
    ∧ fields item !! field = None
    ∧ trip_features item = Raise ("'" +:+ field +:+ "'").
Proof.
  intros Hinc. unfold trip_features, getitem.
  destruct (fields item !! "pickup_latitude") as [v1|] eqn:H1.
  2:{ exists [], "pickup_latitude", (tail required_fields).
      by repeat split. }
  destruct (fields item !! "pickup_longitude") as [v2|] eqn:H2.
  2:{ exists (take 1 required_fields), "pickup_longitude",
        (drop 2 required_fields).
      repeat split; [| done]. repeat constructor. by rewrite H1. }
  destruct (fields item !! "dropoff_latitude") as [v3|] eqn:H3.
  2:{ exists (take 2 required_fields), "dropoff_latitude",
        (drop 3 required_fields).
      repeat split; [| done].
      repeat constructor; [by rewrite H1 | by rewrite H2]. }
  destruct (fields item !! "dropoff_longitude") as [v4|] eqn:H4.
  2:{ exists (take 3 required_fields), "dropoff_longitude",
        (drop 4 required_fields).
      repeat split; [| done].
      repeat constructor; [by rewrite H1 | by rewrite H2 | by rewrite H3]. }
  destruct (fields item !! "pickup_datetime") as [v5|] eqn:H5.
  2:{ exists (take 4 required_fields), "pickup_datetime", [].
      repeat split; [| done].
      repeat constructor;
        [by rewrite H1 | by rewrite H2 | by rewrite H3 | by rewrite H4]. }
  destruct Hinc. unfold complete, required_fields.
  repeat constructor;
    [by rewrite H1 | by rewrite H2 | by rewrite H3 | by rewrite H4
     | by rewrite H5].
Qed.

(** X15. A batch item without a required field yields an error entry
    whose message is the quoted name of the first absent field, in the
    order of [required_fields], and leaves the world alone: no model is
    looked up for it. *)
Theorem batch_missing_field_entry (item : TripData) (w : World) :
  ¬ complete item →
  ∃ before field after,
    required_fields = before ++ field :: after
    ∧ Forall (λ f, is_Some (fields item !! f)) before
    ∧ fields item !! field = None
    ∧ batch_item item w = (w, ErrorEntry ("'" +:+ field +:+ "'")).
Proof.
  intros Hinc.
  destruct (trip_features_first_missing item Hinc)
    as (before & field & after & Heq & Hbefore & Hnone & Hf).
  exists before, field, after. do 3 (split; [done |]).
  by apply batch_item_no_features.
Qed.


(** *** The reported fare *)

Lemma round_half_even_near (q : Q) :
  (inject_Z (round_half_even q) - (1 # 2) <= q)%Q
  ∧ (q <= inject_Z (round_half_even q) + (1 # 2))%Q
  ∧ ((q == inject_Z (round_half_even q) + (1 # 2))%Q
     ∨ (q == inject_Z (round_half_even q) - (1 # 2))%Q →
     Z.even (round_half_even q) = true).
Proof.
  destruct q as [n d]. unfold round_half_even, Qle, Qeq.
  cbn [Qnum Qden].
  pose proof (Z.div_mod n (Z.pos d) ltac:(lia)) as Hdiv.
  pose proof (Z.mod_pos_bound n (Z.pos d) ltac:(lia)) as Hmod.
  set (fl := n / Z.pos d) in *. set (r := n mod Z.pos d) in *.
  destruct (Z.compare_spec (2 * r) (Z.pos d)) as [He|Hl|Hg].
  - destruct (Z.even fl) eqn:Hev; cbn; rewrite ?Pos2Z.inj_mul;
      (split; [nia |]); (split; [nia |]).
    + done.
    + intros _. by rewrite Z.even_add, Hev.
  - cbn. rewrite ?Pos2Z.inj_mul.
    split; [nia |]. split; [nia |]. intros [Ht|Ht]; exfalso; nia.
  - cbn. rewrite ?Pos2Z.inj_mul.
    split; [nia |]. split; [nia |]. intros [Ht|Ht]; exfalso; nia.
Qed.


(** *** The order in which the feature builder fails *)


(** *** The file a model name stands for *)

Lemma prefix_slash_model_file (name : string) :
  String.prefix "/" (name +:+ "_model.pkl") = String.prefix "/" name.
Proof.
  destruct name as [|c name]; [done |].
  change (String c name +:+ "_model.pkl")
    with (String c (name +:+ "_model.pkl")).
  cbn [String.prefix]. destruct (Ascii.ascii_dec _ c); [by destruct name | done].
Qed.

Lemma last_char_append (x : string) (c : Ascii.ascii) (y : string) :
  String.substring (String.length (x +:+ String c y) - 1) 1
                   (x +:+ String c y)
  = String.substring (String.length (String c y) - 1) 1 (String c y).
Proof.
  set (last := String.substring _ 1 (String c y)).
  induction x as [|a x IH]; [done |].
  change (String a x +:+ String c y) with (String a (x +:+ String c y)).
  set (s := x +:+ String c y) in *.
  assert (∃ n, String.length s = S n) as [n Hlen].
  { subst s. destruct x; cbn; eauto. }
  cbn [String.length]. rewrite Hlen in *.
  rewrite Nat.sub_succ, Nat.sub_0_r in *.
  exact IH.
Qed.

Lemma os_path_join_relative (x : string) (c : Ascii.ascii) (y b : string) :
  String.prefix "/" b = false →
  String.eqb
    (String.substring (String.length (String c y) - 1) 1 (String c y)) "/"
  = false →
  os_path_join (x +:+ String c y) b = (x +:+ String c y) +:+ "/" +:+ b.
Proof.
  intros Hb Hlast. unfold os_path_join.
  rewrite Hb, last_char_append, Hlast.
  by destruct x.
Qed.

Lemma MODEL_DIR_join (b : string) :
  String.prefix "/" b = false →
  os_path_join MODEL_DIR b = MODEL_DIR +:+ "/" +:+ b.
Proof.
  intros Hb. unfold MODEL_DIR. unfold os_path_join at 2 3.
  cbn [String.prefix]. destruct (Ascii.ascii_dec _ _); [done |].
  destruct (_ || _)%bool; by apply os_path_join_relative.
Qed.

(** X19. The file [load_model] reads for a name: inside the model
    directory, [MODEL_DIR/<name>_model.pkl], unless the name starts with a
    slash, in which case the path is [<name>_model.pkl] and the model
    directory plays no part. *)
Theorem artifact_path_of_name (name : string) :
  artifact_path name
  = if String.prefix "/" name then name +:+ "_model.pkl"
    else MODEL_DIR +:+ "/" +:+ name +:+ "_model.pkl".
Proof.
  unfold artifact_path.
  destruct (String.prefix "/" name) eqn:Hp.
  - unfold os_path_join. by rewrite prefix_slash_model_file, Hp.
  - apply MODEL_DIR_join. by rewrite prefix_slash_model_file.
Qed.


(** *** The reported distance *)


(** *** The fallback and the listing *)

(** X22. When the requested model is unavailable, the model a prediction
    body names is the first one flagged available in the dict that
    [/api/models], asked in the same world, hands to [jsonify]. *)
Theorem fallback_is_first_listed (data : TripData) (w w' : World)
    (prediction : pynum) (model_used : string) (distance_km : Q)
    (status : Z) :
  complete data →
  unavailable (get_model data "random_forest") w →
  predict data w
  = (w', (PredictBody prediction model_used distance_km, status)) →
  ∃ w1 models,
    list_models w = (w1, Ok (ModelsBody models, 200))
    ∧ head (map fst (List.filter (λ kv, available (snd kv)) models))
      = Some model_used.
Proof.
  intros Hc [Hn Hd] Hp.
  destruct (get_model_info_available w) as (info & Hinfo & Hhead).
  exists (probed table_paths w), info. split.
  { unfold list_models, bind, ret. by rewrite Hinfo. }
  rewrite Hhead.
  rewrite (predict_handled _ _ Hc) in Hp. injection Hp as _ Hp.
  rewrite predict_try_response in Hp.
  unfold resolve in Hp. rewrite Hn, Hd in Hp.
  destruct (first_available w) as [name|]; [| discriminate].
  destruct (predict_with_shape data name (resolve name w))
    as [[msg Hw]|(p & d & Hw)]; unfold resolve in Hw; rewrite Hw in Hp;
    cbn in Hp; congruence.
Qed.

End Properties.

(** ** The properties at concrete inputs *)

#[local] Existing Instance Sample.libs.

Import Sample.

Ltac by_computation := apply (bool_decide_unpack _); vm_compute; exact I.


(** A request without [dropoff_latitude] and [pickup_datetime]. *)
Lemma C4_missing_field_first_witness :
  ¬ complete no_time_trip
  ∧ ∃ before field after,
      required_fields = before ++ field :: after
      ∧ Forall (λ f, is_Some (fields no_time_trip !! f)) before
      ∧ fields no_time_trip !! field = None
      ∧ predict no_time_trip forest_world =
          (forest_world,
           (ErrorBody ("Missing required field: " +:+ field),
            client_error_status)).
Proof.
  assert (¬ complete no_time_trip) as Hinc.
  { apply (bool_decide_eq_false_1 (complete no_time_trip)).
    vm_compute. reflexivity. }
  split; [exact Hinc |]. exact (C4_missing_field_first _ _ Hinc).
Defined.


(** A timestamp the parser rejects, with the forest regressor on disk. *)
Lemma C1_bad_timestamp_server_status_witness :
  complete bad_time_trip
  ∧ fields bad_time_trip !! "pickup_datetime" = Some (VStr "next tuesday")
  ∧ pd_to_datetime (VStr "next tuesday")
    = Raise "Unknown datetime string format, unable to parse: next tuesday"
  ∧ ∃ w' error,
      predict bad_time_trip forest_world
      = (w', (ErrorBody error, server_error_status))
      ∧ server_error_status ≠ client_error_status
      ∧ (unavailable "random_forest" forest_world
         ∧ first_available forest_world = None →
         error = "No models available for prediction")
      ∧ (¬ (unavailable "random_forest" forest_world
            ∧ first_available forest_world = None) →
         ∀ d,
           trip_distance bad_time_trip = Ok d →
           error
           = "Unknown datetime string format, unable to parse: next tuesday").
Proof.
  assert (complete bad_time_trip) as Hc by by_computation.
  assert (fields bad_time_trip !! "pickup_datetime"
          = Some (VStr "next tuesday")) as Hdt.
  { vm_compute. reflexivity. }
  assert (pd_to_datetime (VStr "next tuesday")
          = Raise
              "Unknown datetime string format, unable to parse: next tuesday")
    as Hparse.
  { vm_compute. reflexivity. }
  split; [exact Hc |]. split; [exact Hdt |]. split; [exact Hparse |].
  exact (C1_bad_timestamp_server_status bad_time_trip forest_world
           _ _ Hc Hdt Hparse).
Defined.

(** The claim of C1 fails: the request is complete and its timestamp does
    not parse, yet the status is the server-error one, the same as when no
    model is available, and not the client-error one that an absent field
    gets. *)
Lemma C1_counterexample :
  complete bad_time_trip
  ∧ (∃ datetime msg,
       fields bad_time_trip !! "pickup_datetime" = Some datetime
       ∧ pd_to_datetime datetime = Raise msg)
  ∧ snd (snd (predict bad_time_trip forest_world)) = server_error_status
  ∧ snd (snd (predict bad_time_trip forest_world))
    = snd (snd (predict good_trip empty_world))
  ∧ snd (snd (predict bad_time_trip forest_world)) ≠ client_error_status
  ∧ snd (snd (predict no_time_trip forest_world)) = client_error_status.
Proof.
  split; [by_computation |]. split.
  { exists (VStr "next tuesday"), 
      "Unknown datetime string format, unable to parse: next tuesday".
    split; vm_compute; reflexivity. }
  split; [vm_compute; reflexivity |]. split; [vm_compute; reflexivity |].
  split; [| vm_compute; reflexivity].
  assert (snd (snd (predict bad_time_trip forest_world)) = 500) as ->.
  { vm_compute. reflexivity. }
  unfold client_error_status. lia.
Qed.



(** A batch item asking for the default model where only the linear and
    the xgboost artifacts are on disk. *)
Lemma C7_batch_fallback_linear_witness :
  unavailable (get_model good_trip "random_forest") linear_world
  ∧ (∀ features,
       trip_features good_trip = Ok features →
       ∃ w2,
         load_model "linear_regression"
           (log_event
              (PathExists
                 (artifact_path (get_model good_trip "random_forest")))
              linear_world)
         = (w2, Ok (resolve "linear_regression" linear_world))
         ∧ batch_item good_trip linear_world
           = (w2, entry_of "linear_regression"
                           (resolve "linear_regression" linear_world)
                           features))
  ∧ (∀ w' prediction model_used,
       batch_item good_trip linear_world
       = (w', ResultEntry prediction model_used) →
       model_used = "linear_regression")
  ∧ (∀ m features raw,
       resolve "linear_regression" linear_world = Some m →
       trip_features good_trip = Ok features →
       m features = Ok raw →
       snd (batch_item good_trip linear_world)
       = ResultEntry (py_round2 (py_max0 raw)) "linear_regression").
Proof.
  assert (unavailable (get_model good_trip "random_forest") linear_world)
    as Hun by by_computation.
  split; [exact Hun |].
  exact (C7_batch_fallback_linear good_trip linear_world Hun).
Defined.

(** A batch of three on a disk without the forest and the linear
    artifacts; the third item is looked at. *)
Lemma C10_batch_no_model_is_item_error_witness :
  let items := [good_trip; bad_time_trip; good_trip] in
  items !! 2%nat = Some good_trip
  ∧ unavailable (get_model good_trip "random_forest")
      (world_before items 2 tree_world)
  ∧ unavailable "linear_regression" (world_before items 2 tree_world)
  ∧ (∃ w' results msg,
       batch_predict (Some items) tree_world = (w', (BatchBody results, 200))
       ∧ length results = length items
       ∧ results !! 2%nat = Some (ErrorEntry msg)
       ∧ (∀ features,
            trip_features good_trip = Ok features →
            msg = "'NoneType' object has no attribute 'predict'"))
  ∧ (∀ predictions w0 w' error status,
       batch_predict predictions w0 = (w', (ErrorBody error, status)) →
       predictions = None
       ∧ error = "Missing predictions array"
       ∧ status = client_error_status).
Proof.
  intros items.
  assert (items !! 2%nat = Some good_trip) as Hi by reflexivity.
  assert (unavailable (get_model good_trip "random_forest")
            (world_before items 2 tree_world)) as Hun by by_computation.
  assert (unavailable "linear_regression" (world_before items 2 tree_world))
    as Hlin by by_computation.
  split; [exact Hi |]. split; [exact Hun |]. split; [exact Hlin |].
  exact (C10_batch_no_model_is_item_error items tree_world 2 good_trip
           Hi Hun Hlin).
Defined.


(** A model that is neither cached nor on disk, and the same model once
    its artifact has appeared. *)
Lemma C8_load_model_cache_witness :
  unavailable "xgboost" forest_world
  ∧ ∃ w',
      load_model "xgboost" forest_world = (w', Ok None)
      ∧ _models w' = _models forest_world
      ∧ disk w' = disk forest_world
      ∧ ∀ m w2,
          _models w2 = _models w' →
          disk w2 !! artifact_path "xgboost" = Some m →
          snd (load_model "xgboost" w2) = Ok (Some m)
          ∧ _models (fst (load_model "xgboost" w2)) !! "xgboost" = Some m.
Proof.
  assert (unavailable "xgboost" forest_world) as Hun by by_computation.
  split; [exact Hun |].
  exact (proj2 (proj2 (C8_load_model_cache "xgboost" forest_world)) Hun).
Defined.

(** A world whose cache is empty. *)
Lemma on_disk_cache_from_disk (files : list (string * Model)) :
  cache_from_disk (on_disk files).
Proof.
  intros name m Hl.
  change (_models (on_disk files)) with (∅ : gmap string Model) in Hl.
  by rewrite lookup_empty in Hl.
Qed.

(** The forest regressor is loaded from disk, then asked for again. *)
Lemma load_model_again_witness :
  let w1 := fst (load_model "random_forest" forest_world) in
  load_model "random_forest" forest_world = (w1, Ok (Some linear))
  ∧ load_model "random_forest" w1 = (w1, Ok (Some linear)).
Proof.
  intros w1.
  assert (load_model "random_forest" forest_world = (w1, Ok (Some linear)))
    as Hl by (vm_compute; reflexivity).
  split; [exact Hl |].
  exact (load_model_again "random_forest" forest_world w1 linear Hl).
Defined.


(** From an empty cache, whatever the routes are asked. *)
Lemma routes_keep_cache_from_disk_witness :
  cache_from_disk forest_world
  ∧ cache_from_disk (fst (predict good_trip forest_world))
  ∧ cache_from_disk
      (fst (batch_predict (Some [good_trip; bad_time_trip]) forest_world)).
Proof.
  pose proof (on_disk_cache_from_disk
                [("/srv/app/models/random_forest_model.pkl", linear)])
    as Hs.
  destruct (routes_keep_cache_from_disk forest_world Hs)
    as (_ & Hpredict & Hbatch & _).
  split; [exact Hs |].
  split; [exact (Hpredict good_trip) |].
  exact (Hbatch (Some [good_trip; bad_time_trip])).
Defined.


(** A timestamp that does not parse: the single route has cached the
    forest by the time it fails, the batch route has not. *)
Lemma predict_loads_before_features_witness :
  let msg :=
    "Unknown datetime string format, unable to parse: next tuesday" in
  let path := artifact_path (get_model bad_time_trip "random_forest") in
  complete bad_time_trip
  ∧ _models forest_world !! get_model bad_time_trip "random_forest" = None
  ∧ disk forest_world !! path = Some linear
  ∧ trip_features bad_time_trip = Raise msg
  ∧ predict bad_time_trip forest_world
    = (cache_store (get_model bad_time_trip "random_forest") linear
         (log_event (JoblibLoad path)
            (log_event (PathExists path) forest_world)),
       (ErrorBody msg, server_error_status))
  ∧ batch_item bad_time_trip forest_world = (forest_world, ErrorEntry msg).
Proof.
  intros msg path.
  assert (complete bad_time_trip) as Hc by by_computation.
  assert (_models forest_world !! get_model bad_time_trip "random_forest"
          = None) as Hn by (vm_compute; reflexivity).
  assert (disk forest_world !! path = Some linear)
    as Hd by (vm_compute; reflexivity).
  assert (trip_features bad_time_trip = Raise msg)
    as Hf by (vm_compute; reflexivity).
  split; [exact Hc |]. split; [exact Hn |]. split; [exact Hd |].
  split; [exact Hf |].
  exact (predict_loads_before_features bad_time_trip forest_world linear
           msg Hc Hn Hd Hf).
Defined.

(** The same trip before and after the forest has been cached. *)
Lemma predict_history_independent_witness :
  let w' := fst (predict good_trip forest_world) in
  cache_from_disk forest_world
  ∧ cache_from_disk w'
  ∧ evolves forest_world w'
  ∧ snd (predict good_trip w') = snd (predict good_trip forest_world).
Proof.
  intros w'.
  pose proof (on_disk_cache_from_disk
                [("/srv/app/models/random_forest_model.pkl", linear)])
    as Hs.
  pose proof (predict_cache_from_disk good_trip forest_world Hs) as Hs'.
  pose proof (predict_evolves good_trip forest_world) as Hev.
  split; [exact Hs |]. split; [exact Hs' |]. split; [exact Hev |].
  exact (predict_history_independent good_trip forest_world w' Hs Hs' Hev).
Defined.

(** Without the forest, the tree regressor is first in the listing and
    is the one [predict] uses. *)
Lemma fallback_is_first_listed_witness :
  let data := still_trip None in
  let w' := fst (predict data tree_world) in
  complete data
  ∧ unavailable (get_model data "random_forest") tree_world
  ∧ predict data tree_world
    = (w', (PredictBody (Fin (0 # 100)) "decision_tree" (0 # 100), 200))
  ∧ ∃ w1 models,
      list_models tree_world = (w1, Ok (ModelsBody models, 200))
      ∧ head (map fst (List.filter (λ kv, available (snd kv)) models))
        = Some "decision_tree".
Proof.
  intros data w'.
  assert (complete data) as Hc by by_computation.
  assert (unavailable (get_model data "random_forest") tree_world)
    as Hun by by_computation.
  assert (predict data tree_world
          = (w', (PredictBody (Fin (0 # 100)) "decision_tree" (0 # 100),
                  200)))
    as Hrun by (vm_compute; reflexivity).
  split; [exact Hc |]. split; [exact Hun |]. split; [exact Hrun |].
  exact (fallback_is_first_listed data tree_world w' _ _ _ _ Hc Hun Hrun).
Defined.


(** A batch item without [dropoff_latitude] and [pickup_datetime]. *)
Lemma batch_missing_field_entry_witness :
  ¬ complete no_time_trip
  ∧ batch_item no_time_trip linear_world
    = (linear_world, ErrorEntry "'dropoff_latitude'")
  ∧ ∃ before field after,
      required_fields = before ++ field :: after
      ∧ Forall (λ f, is_Some (fields no_time_trip !! f)) before
      ∧ fields no_time_trip !! field = None
      ∧ batch_item no_time_trip linear_world
        = (linear_world, ErrorEntry ("'" +:+ field +:+ "'")).
Proof.
  assert (¬ complete no_time_trip) as Hinc.
  { apply (bool_decide_eq_false_1 (complete no_time_trip)).
    vm_compute. reflexivity. }
  split; [exact Hinc |].
  split; [vm_compute; reflexivity |].
  exact (batch_missing_field_entry no_time_trip linear_world Hinc).
Defined.



